(** * The English/Welsh bitext scraper (script.py), embedded in Rocq

    The script discovers paired English/Welsh pages of a site through its
    sitemaps, scrapes the announcement articles of both pages, filters the
    index-aligned blocks with [quality_check] and writes the accepted ones to
    a JSON-lines file.

    Python values are modelled as follows.
    - A [str] is a list of Unicode code points ([N]).
    - A raised exception is the [Raise] branch of [result]; [try]/[except]
      is [try_except].
    - The collaborators the script imports (the HTTP session, the XML and
      HTML parsers, markdownify, langdetect, the case tables of [str]) are
      fields of the classes [Unicode], [LangDetect], [Web] and [Scheduler]:
      every theorem holds for all of them, the examples fix small ones.
    - A collaborator is a function of its arguments, so the [lru_cache] on
      [get_urls] and on [extract_probable_entities] cannot be observed; the
      cached lists and sets are never mutated.
    - The global name [REQUEST_DELAY], which script.py reads and never
      binds, is a field of [Config]: unbound as in script.py ([as_shipped]),
      or bound to a delay.
    - The worker threads share nothing but the session; what is left of the
      thread pools is the order in which the futures complete.
    - Logging and progress bars have no effect on any value and are left
      out. *)

From Stdlib Require Import String Ascii.
From Stdlib Require Import Bool Arith ZArith NArith QArith Lia.
From Stdlib Require Import List Permutation.
Import ListNotations.

Close Scope Q_scope.
Set Implicit Arguments.

(** ** Python runtime *)

Module Py.

Definition char := N.
Definition str := list char.

(** Source literals are written as UTF-8 Rocq strings and decoded to code
    points. *)
Fixpoint utf8_decode (bs : list N) : str :=
  match bs with
  | [] => []
  | b0 :: r0 =>
    if (b0 <? 128)%N then b0 :: utf8_decode r0 else
    match r0 with
    | [] => []
    | b1 :: r1 =>
      if (b0 <? 224)%N then ((b0 - 192) * 64 + (b1 - 128))%N :: utf8_decode r1 else
      match r1 with
      | [] => []
      | b2 :: r2 =>
        if (b0 <? 240)%N
        then ((b0 - 224) * 4096 + (b1 - 128) * 64 + (b2 - 128))%N :: utf8_decode r2
        else
          match r2 with
          | [] => []
          | b3 :: r3 =>
            ((b0 - 240) * 262144 + (b1 - 128) * 4096 + (b2 - 128) * 64 + (b3 - 128))%N
              :: utf8_decode r3
          end
      end
    end
  end.

Definition lit (s : string) : str :=
  utf8_decode (map N_of_ascii (list_ascii_of_string s)).

Fixpoint str_eqb (a b : str) : bool :=
  match a, b with
  | [], [] => true
  | x :: a', y :: b' => (x =? y)%N && str_eqb a' b'
  | _, _ => false
  end.

(** Exceptions, all of them subclasses of [Exception]. *)
Inductive exn : Type :=
| ZeroDivisionError
| NameError
| ValueError
| ConnectionError
| ParseError
| Exception (message : str).

Inductive result (A : Type) : Type :=
| Ok (a : A)
| Raise (e : exn).
Arguments Ok {A} a.
Arguments Raise {A} e.

Definition bind {A B} (c : result A) (k : A -> result B) : result B :=
  match c with
  | Ok a => k a
  | Raise e => Raise e
  end.

(** [try: body / except Exception as e: handler e] *)
Definition try_except {A} (body : result A) (handler : exn -> result A) : result A :=
  match body with
  | Ok a => Ok a
  | Raise e => handler e
  end.

(** [str.isspace] on one character: the whitespace set [str.split()] uses. *)
Definition isspace (c : char) : bool :=
  ((9 <=? c) && (c <=? 13) || (28 <=? c) && (c <=? 32)
   || (c =? 133) || (c =? 160) || (c =? 5760)
   || (8192 <=? c) && (c <=? 8202)
   || (c =? 8232) || (c =? 8233) || (c =? 8239) || (c =? 8287) || (c =? 12288))%N.

(** The maximal non-empty runs of characters satisfying [p], left to right.
    [cur] is the run being read, most recent character first. *)
Fixpoint runs_from (p : char -> bool) (s : str) (cur : str) : list str :=
  match s with
  | [] => match cur with [] => [] | _ :: _ => [rev cur] end
  | c :: s' =>
    if p c then runs_from p s' (c :: cur)
    else match cur with
         | [] => runs_from p s' []
         | _ :: _ => rev cur :: runs_from p s' []
         end
  end.

Definition runs (p : char -> bool) (s : str) : list str := runs_from p s [].

(** [text.split()]: the maximal runs of non-whitespace characters. *)
Definition split (text : str) : list str := runs (fun c => negb (isspace c)) text.

(** [re.findall(r'[...]+', text)] for a character class: its maximal runs. *)
Definition findall_plus (class : char -> bool) (text : str) : list str := runs class text.

(** [text.split('\n\n')]: cut at each occurrence of two line feeds, scanning
    left to right without overlap. *)
Fixpoint split_blank_from (s : str) (cur : str) : list str :=
  match s with
  | [] => [rev cur]
  | c :: s' =>
    match s' with
    | [] => [rev (c :: cur)]
    | d :: s'' =>
      if ((c =? 10) && (d =? 10))%N then rev cur :: split_blank_from s'' []
      else split_blank_from s' (c :: cur)
    end
  end.

Definition split_blank (text : str) : list str := split_blank_from text [].

(** [set]: a list without repetition; only membership and size are observed. *)
Definition mem (x : str) (s : list str) : bool := existsb (str_eqb x) s.

Fixpoint set_of (l : list str) : list str :=
  match l with
  | [] => []
  | x :: l' => if mem x l' then set_of l' else x :: set_of l'
  end.

Definition intersection (a b : list str) : list str := filter (fun x => mem x b) a.

Definition union (a b : list str) : list str := set_of (a ++ b).

(** The tables of the Unicode character database that [str.isupper],
    [str.lower] and the regular expression class [\d] consult. *)
Class Unicode : Type := {
  isupper : char -> bool;
  lower : str -> str;
  isdecimal : char -> bool
}.

(** [int / int]: true division.  The quotient is kept exact; CPython rounds
    it to binary64, and the script only compares it with 0.5 and 0.2 (see
    [Binary64] and [ratio_tests_binary64]). *)
Definition truediv (a b : nat) : result Q :=
  match b with
  | O => Raise ZeroDivisionError
  | S _ => Ok (Qmake (Z.of_nat a) (Pos.of_nat b))
  end.

Definition Qlt_bool (x y : Q) : bool := negb (Qle_bool y x).

End Py.

Import Py.

Notation "x <- c ;; k" := (bind c (fun x => k))
  (at level 61, c at next level, right associativity).

(** ** binary64 *)

(** CPython's [int / int] returns the binary64 number nearest to the exact
    quotient, ties to the even significand.  [divide] is that number for
    [0 <= a <= b], [0 < b] (quotients in the unit interval, far above the
    subnormal range).  [quality_check] below keeps the quotient exact; the
    lemmas on [Binary64.divide] show that its two comparisons come out the
    same on the rounded quotient for every token count below 2^53. *)
Module Binary64.

(** The integer nearest to [n / d], ties to even. *)
Definition round_half_even (n d : Z) : Z :=
  let q := (n / d)%Z in
  let r := (n mod d)%Z in
  if (2 * r <? d)%Z then q
  else if (d <? 2 * r)%Z then (q + 1)%Z
  else if Z.even q then q else (q + 1)%Z.

(** For [0 < a <= b], the [k >= 0] with [2^-k <= a/b < 2^(1-k)]. *)
Definition binade (a b : Z) : Z :=
  let t := (Z.log2 b - Z.log2 a)%Z in
  if (b <=? a * 2 ^ t)%Z then t else (t + 1)%Z.

(** 53 significant bits: the significand is [a/b * 2^(52+k)] rounded. *)
Definition divide (a b : Z) : Q :=
  if (a =? 0)%Z then 0%Q
  else let k := binade a b in
       Qmake (round_half_even (a * 2 ^ (52 + k)) b) (Z.to_pos (2 ^ (52 + k))).

End Binary64.

(** ** langdetect *)

(** What [detect(text)] does: it returns a language code or raises
    [LangDetectException]. *)
Inductive detection : Type :=
| Detected (language : str)
| LangDetectException.

Class LangDetect : Type := {
  detect : str -> detection
}.

(** ** The quality filter *)

Section QualityFilter.

Context {U : Unicode} {D : LangDetect}.

Definition extract_probable_entities (text : str) : list str :=
  let words := split text in
  set_of (map lower
    (filter (fun word =>
               match word with
               | [] => false
               | c :: _ => isupper c && (1 <? length word)
               end) words)).

Definition sentence_punctuation (c : char) : bool :=
  ((c =? 46) || (c =? 33) || (c =? 63))%N.

(** The [try] block of the language detection step: [true] when its
    [return False] is taken, [false] when control reaches the code after the
    block (also through [except LangDetectException: pass]). *)
Definition language_detection_rejects (en_text cy_text : str) : bool :=
  match detect en_text with
  | LangDetectException => false
  | Detected en_detected =>
    match detect cy_text with
    | LangDetectException => false
    | Detected cy_detected =>
      negb (str_eqb en_detected (lit "en")) && negb (str_eqb cy_detected (lit "cy"))
    end
  end.

Definition common_en_words : list str :=
  set_of (split (lit "the and of to in is for on that by a are you we with as at from have")).

Definition common_cy_words : list str :=
  set_of (split (lit "y a i yn o ar mae am gyda bod gan ei yr yng chi yw")).

Definition quality_check (en_text cy_text : str) : result bool :=
  let en_length := length (split en_text) in
  let cy_length := length (split cy_text) in
  length_ratio <- truediv (Nat.min en_length cy_length) (Nat.max en_length cy_length) ;;
  if (en_length <? 10) && (cy_length <? 10) && Qlt_bool 0.5%Q length_ratio then Ok true else
  if Qlt_bool length_ratio 0.2%Q then Ok false else
  let en_words := set_of (split (lower en_text)) in
  let cy_words := set_of (split (lower cy_text)) in
  let en_common_count := length (intersection en_words common_en_words) in
  let cy_common_count := length (intersection cy_words common_cy_words) in
  if (en_common_count =? 0) || (cy_common_count =? 0) then Ok false else
  if language_detection_rejects en_text cy_text then Ok false else
  let en_entities := extract_probable_entities en_text in
  let cy_entities := extract_probable_entities cy_text in
  let en_numbers := set_of (findall_plus isdecimal en_text) in
  let cy_numbers := set_of (findall_plus isdecimal cy_text) in
  let common_elements :=
    union (intersection en_entities cy_entities) (intersection en_numbers cy_numbers) in
  if 0 <? length common_elements then Ok true else
  let en_sentence_count := length (findall_plus sentence_punctuation en_text) in
  let cy_sentence_count := length (findall_plus sentence_punctuation cy_text) in
  if (Z.abs (Z.of_nat en_sentence_count - Z.of_nat cy_sentence_count) <=? 1)%Z then Ok true else
  let en_paragraph_count := length (split_blank en_text) in
  let cy_paragraph_count := length (split_blank cy_text) in
  if en_paragraph_count =? cy_paragraph_count then Ok true else
  Ok false.

(** The [return] statements of [quality_check], in source order. *)
Inductive rule : Type :=
| ShortSimilar
| LengthRatio
| CommonWords
| LanguageDetection
| SharedElements
| SentenceCount
| ParagraphCount
| NoCondition.

(** What each [return] statement returns. *)
Definition decision (r : rule) : bool :=
  match r with
  | ShortSimilar | SharedElements | SentenceCount | ParagraphCount => true
  | LengthRatio | CommonWords | LanguageDetection | NoCondition => false
  end.

(** [quality_check] with every [return] replaced by its position: the rule
    that decides a pair. *)
Definition deciding_rule (en_text cy_text : str) : result rule :=
  let en_length := length (split en_text) in
  let cy_length := length (split cy_text) in
  length_ratio <- truediv (Nat.min en_length cy_length) (Nat.max en_length cy_length) ;;
  if (en_length <? 10) && (cy_length <? 10) && Qlt_bool 0.5%Q length_ratio
  then Ok ShortSimilar else
  if Qlt_bool length_ratio 0.2%Q then Ok LengthRatio else
  let en_words := set_of (split (lower en_text)) in
  let cy_words := set_of (split (lower cy_text)) in
  let en_common_count := length (intersection en_words common_en_words) in
  let cy_common_count := length (intersection cy_words common_cy_words) in
  if (en_common_count =? 0) || (cy_common_count =? 0) then Ok CommonWords else
  if language_detection_rejects en_text cy_text then Ok LanguageDetection else
  let en_entities := extract_probable_entities en_text in
  let cy_entities := extract_probable_entities cy_text in
  let en_numbers := set_of (findall_plus isdecimal en_text) in
  let cy_numbers := set_of (findall_plus isdecimal cy_text) in
  let common_elements :=
    union (intersection en_entities cy_entities) (intersection en_numbers cy_numbers) in
  if 0 <? length common_elements then Ok SharedElements else
  let en_sentence_count := length (findall_plus sentence_punctuation en_text) in
  let cy_sentence_count := length (findall_plus sentence_punctuation cy_text) in
  if (Z.abs (Z.of_nat en_sentence_count - Z.of_nat cy_sentence_count) <=? 1)%Z
  then Ok SentenceCount else
  let en_paragraph_count := length (split_blank en_text) in
  let cy_paragraph_count := length (split_blank cy_text) in
  if en_paragraph_count =? cy_paragraph_count then Ok ParagraphCount else
  Ok NoCondition.

End QualityFilter.

(** ** json: the encoder behind [json.dump(..., ensure_ascii=False)] *)

Module Json.

Definition hex_digit (d : N) : char :=
  (if d <? 10 then 48 + d else 87 + d)%N.

(** ['{0:04x}'.format(i)] for [i < 65536] *)
Definition hex4 (i : N) : str :=
  [hex_digit (i / 4096 mod 16); hex_digit (i / 256 mod 16);
   hex_digit (i / 16 mod 16); hex_digit (i mod 16)]%N.

(** The replacement of one character by [encode_basestring]: the backslash,
    the double quote and the control characters below U+0020 are escaped,
    every other character is emitted as it is. *)
Definition escape_char (c : char) : str :=
  (if c =? 92 then [92; 92]
   else if c =? 34 then [92; 34]
   else if c =? 8 then [92; 98]
   else if c =? 12 then [92; 102]
   else if c =? 10 then [92; 110]
   else if c =? 13 then [92; 114]
   else if c =? 9 then [92; 116]
   else if c <? 32 then [92; 117] ++ hex4 c
   else [c])%N.

Definition encode_basestring (s : str) : str :=
  [34%N] ++ flat_map escape_char s ++ [34%N].

(** The chunks of a [dict] of strings, in insertion order, with the default
    separators [', '] and [': ']. *)
Fixpoint encode_items (first : bool) (items : list (str * str)) : str :=
  match items with
  | [] => []
  | (key, value) :: rest =>
    (if first then [] else lit ", ")
      ++ encode_basestring key ++ lit ": " ++ encode_basestring value
      ++ encode_items false rest
  end.

Definition dumps (items : list (str * str)) : str :=
  lit "{" ++ encode_items true items ++ lit "}".

End Json.

(** ** The collaborators of the pipeline *)

(** The HTTP session, the XML and HTML parsers and markdownify.  A fetch or a
    parse either returns or raises. *)
Class Web : Type := {
  content : Type;
  element : Type;
  soup : Type;
  tag : Type;
  (** [session.get(url).content] *)
  session_get : str -> result content;
  (** [ET.fromstring] *)
  fromstring : content -> result element;
  (** [[loc.text for loc in root.findall(".//{...}loc")]] *)
  findall_loc : element -> list str;
  (** [BeautifulSoup(content, 'lxml')] *)
  BeautifulSoup : content -> result soup;
  (** [soup.find('a', class_='language-link', string='Cymraeg')] *)
  find_language_link : soup -> option tag;
  (** [tag['href']] when ['href' in tag.attrs] *)
  href : tag -> option str;
  (** [urljoin(base, href)]; it raises ValueError on a malformed [href] *)
  urljoin : str -> str -> result str;
  (** [soup.find_all('div', class_='announcement-item__article')], in
      document order *)
  find_all_articles : soup -> list tag;
  (** [md(str(article), strip=['a'])] *)
  md_strip_a : tag -> str
}.

(** The global name [REQUEST_DELAY] that [scrape_page] reads.  script.py
    never binds it: that is [None], and reading the name raises NameError.
    The spec calls it a configurable external constant: [Some delay] is the
    module once the constant has been bound to a delay. *)
Class Config : Type := {
  REQUEST_DELAY : option N
}.

(** [concurrent.futures.as_completed]: the futures of an executor in the
    order they complete, some permutation of the submitted ones.  The
    [nat] names the executor (1 for pair discovery, 2 for scraping). *)
Class Scheduler : Type := {
  as_completed : forall A : Type, nat -> list A -> list A;
  as_completed_perm : forall (A : Type) (phase : nat) (l : list A),
      Permutation (as_completed phase l) l
}.

(** ** The pipeline *)

Section Pipeline.

Context {U : Unicode} {D : LangDetect} {W : Web} {C : Config} {S : Scheduler}.

(** Reading a global name of the module. *)
Definition load_global (binding : option N) : result N :=
  match binding with
  | Some value => Ok value
  | None => Raise NameError
  end.

Definition time_sleep (seconds : N) : result unit := Ok tt.

Definition get_urls (sitemap_url : str) : result (list str) :=
  response <- session_get sitemap_url ;;
  root <- fromstring response ;;
  let urls := findall_loc root in
  Ok urls.

Definition get_language_switch_url (sp : soup) (current_url : str)
    : result (option str) :=
  match find_language_link sp with
  | None => Ok None
  | Some switch_link =>
    match href switch_link with
    | None => Ok None
    | Some h =>
      welsh_url <- urljoin current_url h ;;
      Ok (Some welsh_url)
    end
  end.

Definition find_language_pair (url : str) : result (option (str * str)) :=
  try_except
    (response <- session_get url ;;
     sp <- BeautifulSoup response ;;
     welsh_url <- get_language_switch_url sp url ;;
     match welsh_url with
     | Some ((_ :: _) as welsh_url) => Ok (Some (url, welsh_url))
     | _ => Ok None
     end)
    (fun e => Ok None).

Definition get_announcement_articles (sp : soup) : list str :=
  let articles := map md_strip_a (find_all_articles sp) in
  articles.

Definition scrape_page (url : str) : result (list str) :=
  try_except
    (delay <- load_global REQUEST_DELAY ;;
     _ <- time_sleep delay ;;
     response <- session_get url ;;
     sp <- BeautifulSoup response ;;
     let articles := get_announcement_articles sp in
     Ok articles)
    (fun e => Ok []).

(** The loop of [process_url_pair] over [zip(en_articles, cy_articles)]. *)
Fixpoint check_pairs (en_url : str) (zipped : list (str * str))
    (valid_pairs : list (str * str * str)) : result (list (str * str * str)) :=
  match zipped with
  | [] => Ok valid_pairs
  | (en, cy) :: rest =>
    accepted <- quality_check en cy ;;
    if accepted then check_pairs en_url rest (valid_pairs ++ [(en, cy, en_url)])
    else check_pairs en_url rest valid_pairs
  end.

Definition process_url_pair (en_url cy_url : str) : result (list (str * str * str)) :=
  en_articles <- scrape_page en_url ;;
  cy_articles <- scrape_page cy_url ;;
  check_pairs en_url (combine en_articles cy_articles) [].

(** The first loop of [main]: [all_page_urls.extend(get_urls(sitemap_url))]
    for each child sitemap. *)
Fixpoint fetch_sitemaps (sitemap_urls : list str) (all_page_urls : list str)
    : result (list str) :=
  match sitemap_urls with
  | [] => Ok all_page_urls
  | sitemap_url :: rest =>
    urls <- get_urls sitemap_url ;;
    fetch_sitemaps rest (all_page_urls ++ urls)
  end.

Definition root_sitemap : str := lit "https://www.gov.wales/sitemap.xml".

Definition enumerate_pages : result (list str) :=
  sitemap_urls <- get_urls root_sitemap ;;
  fetch_sitemaps sitemap_urls [].

(** Phase 1: [future.result()] of every resolver future in completion order;
    the pairs that are not [None] are kept. *)
Fixpoint collect_pairs (completed : list (result (option (str * str))))
    (url_pairs : list (str * str)) : result (list (str * str)) :=
  match completed with
  | [] => Ok url_pairs
  | future :: rest =>
    pair <- future ;;
    match pair with
    | Some p => collect_pairs rest (url_pairs ++ [p])
    | None => collect_pairs rest url_pairs
    end
  end.

(** [for en, cy, url in results: json.dump(...); f.write('\n')] on the text
    [f] written so far. *)
Fixpoint write_results (results : list (str * str * str)) (f : str) : str :=
  match results with
  | [] => f
  | (en, cy, url) :: rest =>
    let f := f ++ Json.dumps [(lit "en", en); (lit "cy", cy); (lit "url", url)] in
    let f := f ++ [10%N] in
    write_results rest f
  end.

(** Phase 2: the futures in completion order; a raising [future.result()]
    leaves the loop with what was written so far. *)
Fixpoint write_completed (completed : list (result (list (str * str * str))))
    (f : str) : str * option exn :=
  match completed with
  | [] => (f, None)
  | future :: rest =>
    match future with
    | Raise e => (f, Some e)
    | Ok results => write_completed rest (write_results results f)
    end
  end.

(** What a run of [main] leaves behind. *)
Record outcome : Type := {
  (** the text of OUTPUT_DIR/OUTPUT_FILE, [None] when there is no such file *)
  output_file : option str;
  (** the URLs submitted to [find_language_pair] *)
  resolver_units : list str;
  (** the pairs submitted to [process_url_pair] *)
  scrape_units : list (str * str);
  (** the exception caught by the handler of [main], if any *)
  unexpected_error : option exn
}.

(** [prior] is the output file before the run. *)
Definition main (prior : option str) : outcome :=
  match enumerate_pages with
  | Raise e =>
    {| output_file := prior; resolver_units := []; scrape_units := [];
       unexpected_error := Some e |}
  | Ok all_page_urls =>
    match collect_pairs (as_completed 1 (map find_language_pair all_page_urls)) [] with
    | Raise e =>
      {| output_file := prior; resolver_units := all_page_urls; scrape_units := [];
         unexpected_error := Some e |}
    | Ok url_pairs =>
      let futures := map (fun p => process_url_pair (fst p) (snd p)) url_pairs in
      let '(f, error) := write_completed (as_completed 2 futures) [] in
      {| output_file := Some f; resolver_units := all_page_urls;
         scrape_units := url_pairs; unexpected_error := error |}
    end
  end.

End Pipeline.

(** ** Reading the output file back *)

(** A reader of JSON objects whose values are strings, after RFC 8259 and
    [json.loads]: what "the line parses as a JSON object" is measured
    against.  It is not part of the script. *)
Module JsonReader.

Definition hex_value (c : char) : option N :=
  (if (48 <=? c) && (c <=? 57) then Some (c - 48)
   else if (97 <=? c) && (c <=? 102) then Some (c - 87)
   else if (65 <=? c) && (c <=? 70) then Some (c - 55)
   else None)%N.

Definition hex4_value (a b c d : char) : option N :=
  match hex_value a, hex_value b, hex_value c, hex_value d with
  | Some x, Some y, Some z, Some w => Some (x * 4096 + y * 256 + z * 16 + w)%N
  | _, _, _, _ => None
  end.

Definition unescape (e : char) : option char :=
  (if e =? 34 then Some 34
   else if e =? 92 then Some 92
   else if e =? 47 then Some 47
   else if e =? 98 then Some 8
   else if e =? 102 then Some 12
   else if e =? 110 then Some 10
   else if e =? 114 then Some 13
   else if e =? 116 then Some 9
   else None)%N.

Definition is_high_surrogate (u : N) : bool := ((55296 <=? u) && (u <=? 56319))%N.
Definition is_low_surrogate (u : N) : bool := ((56320 <=? u) && (u <=? 57343))%N.

(** The characters after an opening quote, up to the closing one: the
    decoded string and what follows it.  Raw control characters are
    refused; an escaped surrogate pair is joined. *)
Fixpoint scanstring (s : str) (acc : str) : option (str * str) :=
  match s with
  | [] => None
  | c :: s1 =>
    if (c =? 34)%N then Some (rev acc, s1)
    else if (c =? 92)%N then
      match s1 with
      | [] => None
      | e :: s2 =>
        if (e =? 117)%N then
          match s2 with
          | h1 :: h2 :: h3 :: h4 :: s3 =>
            match hex4_value h1 h2 h3 h4 with
            | None => None
            | Some uni =>
              if is_high_surrogate uni then
                match s3 with
                | b :: u :: l1 :: l2 :: l3 :: l4 :: s4 =>
                  match hex4_value l1 l2 l3 l4 with
                  | Some low =>
                    if ((b =? 92) && (u =? 117))%N && is_low_surrogate low
                    then scanstring s4
                           ((65536 + (uni - 55296) * 1024 + (low - 56320))%N :: acc)
                    else scanstring s3 (uni :: acc)
                  | None => scanstring s3 (uni :: acc)
                  end
                | _ => scanstring s3 (uni :: acc)
                end
              else scanstring s3 (uni :: acc)
            end
          | _ => None
          end
        else
          match unescape e with
          | Some ch => scanstring s2 (ch :: acc)
          | None => None
          end
      end
    else if (c <? 32)%N then None
    else scanstring s1 (c :: acc)
  end.

Definition is_ws (c : char) : bool :=
  ((c =? 32) || (c =? 9) || (c =? 10) || (c =? 13))%N.

Fixpoint skip_ws (s : str) : str :=
  match s with
  | [] => []
  | c :: s' => if is_ws c then skip_ws s' else s
  end.

Definition parse_string (s : str) : option (str * str) :=
  match skip_ws s with
  | [] => None
  | c :: s' => if (c =? 34)%N then scanstring s' [] else None
  end.

Definition expect (c : char) (s : str) : option str :=
  match skip_ws s with
  | [] => None
  | d :: s' => if (d =? c)%N then Some s' else None
  end.

(** The members of an object after its opening brace, up to the end of the
    text.  Every member consumes input, so [fuel] is the length of the text. *)
Fixpoint parse_members (fuel : nat) (s : str) (acc : list (str * str))
    : option (list (str * str)) :=
  match fuel with
  | O => None
  | S fuel' =>
    match parse_string s with
    | None => None
    | Some (key, s1) =>
      match expect 58%N s1 with
      | None => None
      | Some s2 =>
        match parse_string s2 with
        | None => None
        | Some (value, s3) =>
          match skip_ws s3 with
          | [] => None
          | d :: s4 =>
            if (d =? 44)%N then parse_members fuel' s4 (acc ++ [(key, value)])
            else if (d =? 125)%N then
              match skip_ws s4 with
              | [] => Some (acc ++ [(key, value)])
              | _ :: _ => None
              end
            else None
          end
        end
      end
    end
  end.

Definition loads_object (s : str) : option (list (str * str)) :=
  match expect 123%N s with
  | None => None
  | Some s1 =>
    match expect 125%N s1 with
    | Some s2 => match skip_ws s2 with [] => Some [] | _ :: _ => None end
    | None => parse_members (length s) s1 []
    end
  end.

(** The lines of a text file, without their terminating line feed. *)
Fixpoint lines_from (s : str) (cur : str) : list str :=
  match s with
  | [] => match cur with [] => [] | _ :: _ => [rev cur] end
  | c :: s' =>
    if (c =? 10)%N then rev cur :: lines_from s' [] else lines_from s' (c :: cur)
  end.

Definition lines (s : str) : list str := lines_from s [].

End JsonReader.

(** ** Small collaborators for the examples *)

(** The case tables of the code points below 256 (Basic Latin and Latin-1
    Supplement); the examples stay in that range. *)
Definition latin1_isupper (c : char) : bool :=
  ((65 <=? c) && (c <=? 90) || (192 <=? c) && (c <=? 222) && negb (c =? 215))%N.

Definition latin1_lower (c : char) : char :=
  if latin1_isupper c then (c + 32)%N else c.

Definition latin1_isdecimal (c : char) : bool := ((48 <=? c) && (c <=? 57))%N.

Definition latin1 : Unicode :=
  {| isupper := latin1_isupper;
     lower := map latin1_lower;
     isdecimal := latin1_isdecimal |}.

(** A detector that finds no language feature in any text. *)
Definition detect_nothing : LangDetect := {| detect := fun _ => LangDetectException |}.

(** A detector that answers the same language for every text. *)
Definition detect_always (language : string) : LangDetect :=
  {| detect := fun _ => Detected (lit language) |}.

(** Completion in submission order, and in the reverse order. *)
Definition in_order : Scheduler :=
  {| as_completed := fun A _ l => l;
     as_completed_perm := fun A _ l => Permutation_refl l |}.

Definition reversed : Scheduler :=
  {| as_completed := fun A _ l => rev l;
     as_completed_perm := fun A _ l => Permutation_sym (Permutation_rev l) |}.

(** script.py as it is: [REQUEST_DELAY] is not bound. *)
Definition as_shipped : Config := {| REQUEST_DELAY := None |}.

(** The module with [REQUEST_DELAY] bound to zero. *)
Definition no_delay : Config := {| REQUEST_DELAY := Some 0%N |}.

(** [urljoin] on the links of the example sites, which are absolute URLs or
    empty: an empty link resolves to the page itself, a link with an
    unclosed bracket is malformed, any other link is its own target. *)
Definition table_urljoin (base h : str) : result str :=
  match h with
  | [] => Ok base
  | _ :: _ =>
    if existsb (N.eqb 91) h && negb (existsb (N.eqb 93) h)
    then Raise ValueError
    else Ok h
  end.

(** A site given as a table from URL to document.  A URL that is not in the
    table cannot be fetched; a sitemap is not refused by the HTML parser but
    holds no link and no article; a page is refused by the XML parser. *)
Inductive document : Type :=
| Sitemap (locs : list str)
| Page (switch_href : option str) (articles : list str).

Fixpoint lookup (site : list (str * document)) (url : str) : option document :=
  match site with
  | [] => None
  | (u, d) :: rest => if str_eqb u url then Some d else lookup rest url
  end.

Definition table_web (site : list (str * document)) : Web :=
  {| content := document;
     element := list str;
     soup := option str * list str;
     tag := str;
     session_get := fun url =>
       match lookup site url with
       | Some d => Ok d
       | None => Raise ConnectionError
       end;
     fromstring := fun d =>
       match d with
       | Sitemap locs => Ok locs
       | Page _ _ => Raise ParseError
       end;
     findall_loc := fun locs => locs;
     BeautifulSoup := fun d =>
       match d with
       | Sitemap _ => Ok (None, [])
       | Page sw arts => Ok (sw, arts)
       end;
     find_language_link := fun sp => fst sp;
     href := fun t => Some t;
     urljoin := table_urljoin;
     find_all_articles := fun sp => snd sp;
     md_strip_a := fun t => t |}.

(** ** The notions the properties are stated with *)

Definition token_count (text : str) : nat := length (split text).

(** [min(len_en, len_cy) / max(len_en, len_cy)] as a rational; it is only
    read where one of the counts is positive. *)
Definition length_ratio (en_text cy_text : str) : Q :=
  Qmake (Z.of_nat (Nat.min (token_count en_text) (token_count cy_text)))
        (Pos.of_nat (Nat.max (token_count en_text) (token_count cy_text))).

(** The JSON text of an accepted pair, and the line it makes in the file. *)
Definition record_json (r : str * str * str) : str :=
  let '(en, cy, url) := r in
  Json.dumps [(lit "en", en); (lit "cy", cy); (lit "url", url)].

Definition record_line (r : str * str * str) : str := record_json r ++ [10%N].

(** What the reader must give back for the line of an accepted pair. *)
Definition record_object (r : str * str * str) : list (str * str) :=
  let '(en, cy, url) := r in [(lit "en", en); (lit "cy", cy); (lit "url", url)].

Section Evidence.

Context {U : Unicode} {D : LangDetect}.

(** A probable proper noun of a text: one of its tokens, longer than one
    character, whose first character is uppercase. *)
Definition probable_proper_noun (word text : str) : Prop :=
  In word (split text) /\ 1 < length word /\
  exists c rest, word = c :: rest /\ isupper c = true.

(** The two texts have a proper noun in common once both are lowercased. *)
Definition share_proper_noun (en_text cy_text : str) : Prop :=
  exists w_en w_cy,
    probable_proper_noun w_en en_text /\ probable_proper_noun w_cy cy_text /\
    lower w_en = lower w_cy.

(** The two texts have a maximal run of digits in common. *)
Definition share_numeral (en_text cy_text : str) : Prop :=
  exists run, In run (runs isdecimal en_text) /\ In run (runs isdecimal cy_text).

Definition short_and_similar (en_text cy_text : str) : Prop :=
  token_count en_text < 10 /\ token_count cy_text < 10 /\
  (0.5 < length_ratio en_text cy_text)%Q.

Definition has_common_word (text : str) (common : list str) : Prop :=
  exists word, In word (split (lower text)) /\ In word common.

(** Both languages were detected and neither is the expected one. *)
Definition detection_contradicts (en_text cy_text : str) : Prop :=
  exists en_detected cy_detected,
    detect en_text = Detected en_detected /\ detect cy_text = Detected cy_detected /\
    en_detected <> lit "en" /\ cy_detected <> lit "cy".

(** Rules 1 to 4 are inconclusive: the division succeeds, the texts are not
    short and similar, the ratio is at least 0.2, each text has one of the
    common words of its language, and detection does not contradict. *)
Definition reaches_shared_evidence (en_text cy_text : str) : Prop :=
  0 < Nat.max (token_count en_text) (token_count cy_text) /\
  ~ short_and_similar en_text cy_text /\
  ~ (length_ratio en_text cy_text < 0.2)%Q /\
  has_common_word en_text common_en_words /\
  has_common_word cy_text common_cy_words /\
  ~ detection_contradicts en_text cy_text.

End Evidence.

(** A text without line feed and carriage return. *)
Definition line_free (s : str) : Prop := Forall (fun c => c <> 10%N /\ c <> 13%N) s.

Section Provenance.

Context {U : Unicode} {D : LangDetect} {W : Web} {C : Config}.

(** The record holds the blocks at one index of an English page and of the
    Welsh page its language link leads to, the filter accepted them, and its
    URL is that of the English page. *)
Definition came_from (all_page_urls : list str) (r : str * str * str) : Prop :=
  let '(en, cy, url) := r in
  exists (cy_url : str) (en_articles cy_articles : list str) (i : nat),
    In url all_page_urls /\
    find_language_pair url = Ok (Some (url, cy_url)) /\
    scrape_page url = Ok en_articles /\
    scrape_page cy_url = Ok cy_articles /\
    nth_error en_articles i = Some en /\
    nth_error cy_articles i = Some cy /\
    quality_check en cy = Ok true.

End Provenance.

(** ** Example texts *)

Definition the_cat_sat : str := lit "The cat sat".
Definition y_gath_yn_eistedd : str := lit "Y gath yn eistedd".

Definition visit_london : str := lit "Visit London in 2024".
Definition ymweld_a_london : str := lit "Ymweld â London yn 2024".

(** Fifty tokens against five. *)
Definition fifty_tokens : str := concat (repeat (lit "gair ") 50).
Definition five_tokens : str := lit "dim ond pum gair yma".

(** A pair of twelve tokens each that is decided by the shared numeral. *)
Definition report_en : str :=
  lit "The report is published on the website of the Government in 2024".
Definition report_cy : str :=
  lit "Mae yr adroddiad yn cael ei gyhoeddi ar wefan Llywodraeth Cymru yn 2024".

(** ** Example sites *)

Definition sitemap_1 : str := lit "https://www.gov.wales/sitemap.xml?page=1".
Definition sitemap_2 : str := lit "https://www.gov.wales/sitemap.xml?page=2".
Definition news_en : str := lit "https://www.gov.wales/news".
Definition news_cy : str := lit "https://www.llyw.cymru/newyddion".
Definition about_en : str := lit "https://www.gov.wales/about".

(** One child sitemap, a page with a Welsh counterpart and one without.  The
    Welsh page has one article more than the English one. *)
Definition bilingual_site : list (str * document) :=
  [ (root_sitemap, Sitemap [sitemap_1]);
    (sitemap_1, Sitemap [news_en; about_en]);
    (news_en, Page (Some news_cy) [report_en; fifty_tokens; the_cat_sat]);
    (news_cy, Page None [report_cy; five_tokens; y_gath_yn_eistedd; ymweld_a_london]);
    (about_en, Page None [visit_london]) ].

(** Two child sitemaps; the first one cannot be fetched. *)
Definition site_with_unreachable_sitemap : list (str * document) :=
  [ (root_sitemap, Sitemap [sitemap_1; sitemap_2]);
    (sitemap_2, Sitemap [news_en; about_en]);
    (news_en, Page (Some news_cy) [report_en]);
    (news_cy, Page None [report_cy]);
    (about_en, Page None [visit_london]) ].

(** Two child sitemaps; the first one is not a sitemap document. *)
Definition site_with_malformed_sitemap : list (str * document) :=
  [ (root_sitemap, Sitemap [sitemap_1; sitemap_2]);
    (sitemap_1, Page None []);
    (sitemap_2, Sitemap [news_en; about_en]);
    (news_en, Page (Some news_cy) [report_en]);
    (news_cy, Page None [report_cy]);
    (about_en, Page None [visit_london]) ].

(** No page has a language-switch link, and one page cannot be fetched. *)
Definition monolingual_site : list (str * document) :=
  [ (root_sitemap, Sitemap [sitemap_1]);
    (sitemap_1, Sitemap [news_en; about_en]);
    (about_en, Page None [visit_london]) ].

(** ** Further notions: the structure rules, the units, the run *)

(** [len(re.findall(r'[.!?]+', text))] and [len(text.split('\n\n'))]. *)
Definition sentence_count (text : str) : nat :=
  length (findall_plus sentence_punctuation text).

Definition paragraph_count (text : str) : nat := length (split_blank text).

(** The two texts have sentence counts at most one apart, or as many
    paragraphs. *)
Definition similar_structure (en_text cy_text : str) : Prop :=
  (Z.abs (Z.of_nat (sentence_count en_text) - Z.of_nat (sentence_count cy_text)) <= 1)%Z
  \/ paragraph_count en_text = paragraph_count cy_text.

(** What a completed future contributes: the pair of a resolver future, the
    records of a unit future; nothing when it holds [None] or an exception. *)
Definition pair_of (future : result (option (str * str))) : list (str * str) :=
  match future with
  | Ok (Some found) => [found]
  | _ => []
  end.

Definition records_of (future : result (list (str * str * str)))
    : list (str * str * str) :=
  match future with
  | Ok results => results
  | Raise _ => []
  end.

Section Units.

Context {U : Unicode} {D : LangDetect} {W : Web} {C : Config}.

(** The filter says yes. *)
Definition accepted (texts : str * str) : bool :=
  match quality_check (fst texts) (snd texts) with
  | Ok true => true
  | _ => false
  end.

(** The pairs the resolver finds for the pages, in page order. *)
Definition found_pairs (all_page_urls : list str) : list (str * str) :=
  flat_map (fun url => pair_of (find_language_pair url)) all_page_urls.

(** The records of one unit, none when it raises. *)
Definition unit_records (urls : str * str) : list (str * str * str) :=
  records_of (process_url_pair (fst urls) (snd urls)).

End Units.

(** Pair discovery completes in submission order, scraping in the reverse
    order. *)
Definition scraping_reversed : Scheduler :=
  {| as_completed := fun A phase l => if phase =? 2 then rev l else l;
     as_completed_perm := fun A phase l =>
       match phase =? 2 as b
             return Permutation (if b then rev l else l) l with
       | true => Permutation_sym (Permutation_rev l)
       | false => Permutation_refl l
       end |}.

(** A bilingual page, listed first, and a page whose second article is
    blank, with a Welsh page blank at the same place. *)
Definition events_en : str := lit "https://www.gov.wales/events".
Definition events_cy : str := lit "https://www.llyw.cymru/digwyddiadau".

Definition site_with_blank_articles : list (str * document) :=
  [ (root_sitemap, Sitemap [sitemap_1]);
    (sitemap_1, Sitemap [events_en; news_en]);
    (news_en, Page (Some news_cy) [the_cat_sat; lit "  "; report_en]);
    (news_cy, Page None [y_gath_yn_eistedd; []; report_cy]);
    (events_en, Page (Some events_cy) [report_en]);
    (events_cy, Page None [report_cy]) ].

(** The same page listed by two child sitemaps. *)
Definition site_with_repeated_page : list (str * document) :=
  [ (root_sitemap, Sitemap [sitemap_1; sitemap_2]);
    (sitemap_1, Sitemap [news_en; about_en]);
    (sitemap_2, Sitemap [news_en]);
    (news_en, Page (Some news_cy) [report_en; fifty_tokens; the_cat_sat]);
    (news_cy, Page None [report_cy; five_tokens; y_gath_yn_eistedd]);
    (about_en, Page None [visit_london]) ].

(** A page whose language link has an empty target, and one whose link is
    malformed. *)
Definition site_with_empty_link : list (str * document) :=
  [ (root_sitemap, Sitemap [sitemap_1]);
    (sitemap_1, Sitemap [news_en; about_en]);
    (news_en, Page (Some []) [report_en]);
    (about_en, Page (Some (lit "http://[invalid")) [visit_london]) ].

(** * Properties *)

(** ** The Python runtime *)

Lemma str_eqb_eq (a b : str) : str_eqb a b = true <-> a = b.
Proof.
  revert b; induction a as [|x a IH]; intros [|y b]; simpl; split;
    try congruence; try reflexivity.
  - rewrite andb_true_iff, N.eqb_eq, IH. intros [-> ->]; reflexivity.
  - intros [= -> ->]. rewrite N.eqb_refl. apply IH; reflexivity.
Qed.

Lemma mem_In (x : str) (s : list str) : mem x s = true <-> In x s.
Proof.
  unfold mem. rewrite existsb_exists. split.
  - intros (y & Hy & Heq). apply str_eqb_eq in Heq. subst; assumption.
  - intros H. exists x. split; [assumption | apply str_eqb_eq; reflexivity].
Qed.

Lemma set_of_In (x : str) (l : list str) : In x (set_of l) <-> In x l.
Proof.
  induction l as [|y l IH]; simpl; [tauto|].
  destruct (mem y l) eqn:Hm; simpl; rewrite IH.
  - apply mem_In in Hm. split; [tauto | intros [<- | H]; assumption].
  - reflexivity.
Qed.

Lemma intersection_In (x : str) (a b : list str) :
  In x (intersection a b) <-> In x a /\ In x b.
Proof. unfold intersection. rewrite filter_In, mem_In. reflexivity. Qed.

Lemma union_In (x : str) (a b : list str) : In x (union a b) <-> In x a \/ In x b.
Proof. unfold union. rewrite set_of_In. apply in_app_iff. Qed.

Lemma length_zero_no_element (A : Type) (l : list A) :
  (length l =? 0) = false <-> exists x, In x l.
Proof.
  destruct l as [|x l]; simpl; split; try congruence.
  - intros [x []].
  - intros _. exists x. left; reflexivity.
Qed.

(** Every run is non-empty, so [word[0]] never fails on a token. *)
Lemma runs_from_nonempty (p : char -> bool) (s cur : str) :
  Forall (fun run => run <> []) (runs_from p s cur).
Proof.
  assert (Hrev : forall (c : char) l, rev (c :: l) <> []).
  { intros c l H. apply (f_equal (@length _)) in H.
    rewrite length_rev in H. discriminate. }
  revert cur; induction s as [|c s IH]; intros cur; simpl.
  - destruct cur; constructor; [apply Hrev | constructor].
  - destruct (p c); [apply IH|].
    destruct cur; [apply IH | constructor; [apply Hrev | apply IH]].
Qed.

Lemma split_nonempty (text word : str) : In word (split text) -> word <> [].
Proof.
  intros H. pose proof (runs_from_nonempty (fun c => negb (isspace c)) text []) as F.
  rewrite Forall_forall in F. apply F. exact H.
Qed.

Lemma Qlt_bool_iff (x y : Q) : Qlt_bool x y = true <-> (x < y)%Q.
Proof.
  unfold Qlt_bool. rewrite negb_true_iff. split.
  - intros H. apply Qnot_le_lt. intros Hle. apply Qle_bool_iff in Hle. congruence.
  - intros H. destruct (Qle_bool y x) eqn:E; [|reflexivity].
    apply Qle_bool_iff in E. exfalso. exact (Qlt_not_le _ _ H E).
Qed.

Lemma Qlt_bool_false_iff (x y : Q) : Qlt_bool x y = false <-> ~ (x < y)%Q.
Proof.
  rewrite <- Qlt_bool_iff. destruct (Qlt_bool x y); split; congruence.
Qed.

Lemma truediv_positive (a b : nat) :
  0 < b -> truediv a b = Ok (Qmake (Z.of_nat a) (Pos.of_nat b)).
Proof. destruct b; [lia | reflexivity]. Qed.

Lemma truediv_zero (a : nat) : truediv a 0 = Raise ZeroDivisionError.
Proof. reflexivity. Qed.

(** ** binary64 quotients against exact ones *)

Lemma round_half_even_near (n d : Z) :
  (0 < d)%Z ->
  let m := Binary64.round_half_even n d in
  ((2 * m - 1) * d <= 2 * n <= (2 * m + 1) * d)%Z.
Proof.
  intros Hd m. subst m. unfold Binary64.round_half_even.
  pose proof (Z.div_mod n d ltac:(lia)) as Hdm.
  pose proof (Z.mod_pos_bound n d Hd) as Hr.
  set (q := (n / d)%Z) in *. set (r := (n mod d)%Z) in *.
  destruct (Z.ltb_spec (2 * r) d); [nia|].
  destruct (Z.ltb_spec d (2 * r)); [nia|].
  destruct (Z.even q); nia.
Qed.

Lemma binade_spec (a b : Z) :
  (0 < a <= b)%Z ->
  let k := Binary64.binade a b in
  (0 <= k /\ b <= a * 2 ^ k /\ (k = 0 \/ a * 2 ^ (k - 1) < b))%Z.
Proof.
  intros Hab k. subst k. unfold Binary64.binade.
  pose proof (Z.log2_spec a ltac:(lia)) as Ha.
  pose proof (Z.log2_spec b ltac:(lia)) as Hb.
  pose proof (Z.log2_nonneg a) as Hla.
  pose proof (Z.log2_le_mono a b ltac:(lia)) as Hle.
  set (la := Z.log2 a) in *. set (lb := Z.log2 b) in *.
  set (t := (lb - la)%Z).
  assert (Ht : (0 <= t)%Z) by (subst t; lia).
  assert (Hpow : (2 ^ lb = 2 ^ la * 2 ^ t)%Z).
  { subst t. rewrite <- Z.pow_add_r by lia. f_equal. lia. }
  assert (Hpt : (0 < 2 ^ t)%Z) by (apply Z.pow_pos_nonneg; lia).
  destruct (Z.leb_spec b (a * 2 ^ t)) as [Hbt | Hbt].
  - split; [exact Ht|]. split; [exact Hbt|].
    destruct (Z.eq_dec t 0) as [Hz | Hnz]; [left; exact Hz | right].
    assert (Hsplit : (2 ^ t = 2 * 2 ^ (t - 1))%Z).
    { rewrite <- (Z.pow_succ_r 2 (t - 1)) by lia. f_equal. lia. }
    assert (Hpt1 : (0 < 2 ^ (t - 1))%Z) by (apply Z.pow_pos_nonneg; lia).
    rewrite Z.pow_succ_r in Ha by lia. nia.
  - split; [lia|]. split.
    + rewrite Z.pow_add_r by lia. change (2 ^ 1)%Z with 2%Z.
      rewrite Z.pow_succ_r in Hb by lia. nia.
    + right. replace (t + 1 - 1)%Z with t by lia. exact Hbt.
Qed.

(** The significand and the scale of a quotient, with what rounding to nearest
    gives about them. *)
Lemma divide_positive (a b : Z) :
  (0 < a <= b)%Z ->
  exists k m : Z,
    (0 <= k)%Z /\
    Binary64.divide a b = Qmake m (Z.to_pos (2 ^ (52 + k))) /\
    ((2 * m - 1) * b <= 2 * (a * 2 ^ (52 + k)) <= (2 * m + 1) * b)%Z /\
    (b <= a * 2 ^ k)%Z /\ (k = 0 \/ a * 2 ^ (k - 1) < b)%Z.
Proof.
  intros Hab. destruct (@binade_spec a b Hab) as (Hk & Hle & Hmin).
  exists (Binary64.binade a b),
         (Binary64.round_half_even (a * 2 ^ (52 + Binary64.binade a b)) b).
  split; [exact Hk|]. split.
  - unfold Binary64.divide. destruct (Z.eqb_spec a 0); [lia | reflexivity].
  - split; [apply round_half_even_near; lia|]. split; assumption.
Qed.

Lemma pow2_split (k : Z) : (0 <= k)%Z -> (2 ^ (52 + k) = 4503599627370496 * 2 ^ k)%Z.
Proof. intros Hk. rewrite Z.pow_add_r by lia. reflexivity. Qed.

Lemma pow2_ge (j k : Z) : (0 <= j <= k)%Z -> (2 ^ j <= 2 ^ k)%Z.
Proof. intros H. apply Z.pow_le_mono_r; lia. Qed.

Lemma divide_above_half (a b : Z) :
  (0 <= a <= b)%Z -> (0 < b < 2 ^ 53)%Z ->
  (0.5 < Binary64.divide a b)%Q <-> (b < 2 * a)%Z.
Proof.
  intros Hab Hb. change (2 ^ 53)%Z with 9007199254740992%Z in Hb.
  destruct (Z.eq_dec a 0) as [-> | Ha].
  { unfold Binary64.divide, Qlt; simpl. lia. }
  destruct (@divide_positive a b ltac:(lia)) as (k & m & Hk & -> & Hnear & Hle & Hmin).
  pose proof (pow2_split Hk) as HP.
  assert (Hpk : (0 < 2 ^ k)%Z) by (apply Z.pow_pos_nonneg; lia).
  unfold Qlt; cbn [Qnum Qden]. rewrite Z2Pos.id by lia.
  set (P := (2 ^ (52 + k))%Z) in *.
  destruct (Z.eq_dec k 0) as [-> | Hk0].
  - (* a = b and the quotient is 1 *)
    change (2 ^ 0)%Z with 1%Z in *. assert (a = b) by lia. subst a.
    assert (m = P) by nia. lia.
  - destruct Hmin as [? | Hmin]; [lia|].
    assert (H2k : (2 ^ k = 2 * 2 ^ (k - 1))%Z).
    { rewrite <- (Z.pow_succ_r 2 (k - 1)) by lia. f_equal. lia. }
    assert (Hpk1 : (1 <= 2 ^ (k - 1))%Z).
    { change 1%Z with (2 ^ 0)%Z. apply pow2_ge. lia. }
    split.
    + (* the quotient exceeds one half: so does the exact ratio *)
      intros Hm. destruct (Z_lt_le_dec b (2 * a)) as [? | Hsmall]; [assumption|].
      exfalso. nia.
    + intros Hbig. nia.
Qed.

Lemma literal_one_fifth :
  Binary64.divide 1 5 = Qmake 7205759403792794 (Z.to_pos (2 ^ 55)).
Proof. reflexivity. Qed.

Lemma divide_below_fifth (a b : Z) :
  (0 <= a <= b)%Z -> (0 < b < 2 ^ 53)%Z ->
  (Binary64.divide a b < Binary64.divide 1 5)%Q <-> (5 * a < b)%Z.
Proof.
  intros Hab Hb. change (2 ^ 53)%Z with 9007199254740992%Z in Hb.
  rewrite literal_one_fifth.
  destruct (Z.eq_dec a 0) as [-> | Ha].
  { unfold Binary64.divide, Qlt; simpl. lia. }
  destruct (@divide_positive a b ltac:(lia)) as (k & m & Hk & -> & Hnear & Hle & Hmin).
  assert (Hpk : (0 < 2 ^ k)%Z) by (apply Z.pow_pos_nonneg; lia).
  unfold Qlt; cbn [Qnum Qden]. rewrite !Z2Pos.id by (apply Z.pow_pos_nonneg; lia).
  change (2 ^ 55)%Z with 36028797018963968%Z.
  assert (Hcases : (k = 0 \/ k = 1 \/ k = 2 \/ k = 3 \/ 4 <= k)%Z) by lia.
  destruct Hcases as [-> | [-> | [-> | [-> | Hk4]]]].
  - change (2 ^ (52 + 0))%Z with 4503599627370496%Z in *.
    change (2 ^ 0)%Z with 1%Z in *. split; intros; nia.
  - change (2 ^ (52 + 1))%Z with 9007199254740992%Z in *.
    change (2 ^ 1)%Z with 2%Z in *. split; intros; nia.
  - change (2 ^ (52 + 2))%Z with 18014398509481984%Z in *.
    change (2 ^ 2)%Z with 4%Z in *. split; intros; nia.
  - change (2 ^ (52 + 3))%Z with 36028797018963968%Z in *.
    change (2 ^ 3)%Z with 8%Z in *. change (2 ^ (3 - 1))%Z with 4%Z in *.
    destruct Hmin as [? | Hmin]; [lia|]. split; intros; nia.
  - (* at most one sixteenth against more than one eighth *)
    destruct Hmin as [? | Hmin]; [lia|].
    assert (H8 : (8 <= 2 ^ (k - 1))%Z).
    { change 8%Z with (2 ^ 3)%Z. apply pow2_ge. lia. }
    assert (HP : (2 ^ (52 + k) = 9007199254740992 * 2 ^ (k - 1))%Z).
    { replace (52 + k)%Z with (53 + (k - 1))%Z by lia.
      rewrite Z.pow_add_r by lia. reflexivity. }
    rewrite HP in *. set (p := (2 ^ (k - 1))%Z) in *.
    split; [intros _; nia|]. intros _. nia.
Qed.

Lemma Zpos_of_nat (b : nat) : 0 < b -> Z.pos (Pos.of_nat b) = Z.of_nat b.
Proof.
  intros Hb. rewrite <- (Nat2Pos.id b) at 2 by lia.
  symmetry. apply positive_nat_Z.
Qed.

(** Both comparisons of [quality_check] come out the same on the binary64
    quotient and the binary64 literal 0.2 as on the exact ratio, for token
    counts below 2^53. *)
Lemma ratio_tests_binary64 (en cy : str) :
  0 < Nat.max (token_count en) (token_count cy) ->
  (Z.of_nat (Nat.max (token_count en) (token_count cy)) < 2 ^ 53)%Z ->
  let rounded :=
    Binary64.divide (Z.of_nat (Nat.min (token_count en) (token_count cy)))
                    (Z.of_nat (Nat.max (token_count en) (token_count cy))) in
  Qlt_bool 0.5%Q rounded = Qlt_bool 0.5%Q (length_ratio en cy) /\
  Qlt_bool rounded (Binary64.divide 1 5) = Qlt_bool (length_ratio en cy) 0.2%Q.
Proof.
  intros Hpos Hbound rounded. subst rounded. unfold length_ratio.
  set (a := Nat.min (token_count en) (token_count cy)) in *.
  set (b := Nat.max (token_count en) (token_count cy)) in *.
  assert (Hab : a <= b) by (subst a b; lia).
  assert (Hhalf : (0.5 < Qmake (Z.of_nat a) (Pos.of_nat b))%Q
                  <-> (Z.of_nat b < 2 * Z.of_nat a)%Z).
  { unfold Qlt; cbn [Qnum Qden]. rewrite Zpos_of_nat by lia. lia. }
  assert (Hfifth : (Qmake (Z.of_nat a) (Pos.of_nat b) < 0.2)%Q
                   <-> (5 * Z.of_nat a < Z.of_nat b)%Z).
  { unfold Qlt; cbn [Qnum Qden]. rewrite Zpos_of_nat by lia. lia. }
  pose proof (@divide_above_half (Z.of_nat a) (Z.of_nat b) ltac:(lia) ltac:(lia)) as H1.
  pose proof (@divide_below_fifth (Z.of_nat a) (Z.of_nat b) ltac:(lia) ltac:(lia)) as H2.
  split.
  - destruct (Qlt_bool 0.5%Q (Binary64.divide (Z.of_nat a) (Z.of_nat b))) eqn:E1;
      symmetry.
    + apply Qlt_bool_iff, Hhalf, H1, Qlt_bool_iff. exact E1.
    + apply Qlt_bool_false_iff. intros H. apply Qlt_bool_false_iff in E1. apply E1.
      apply H1, Hhalf. exact H.
  - destruct (Qlt_bool (Binary64.divide (Z.of_nat a) (Z.of_nat b))
                       (Binary64.divide 1 5)) eqn:E2; symmetry.
    + apply Qlt_bool_iff, Hfifth, H2, Qlt_bool_iff. exact E2.
    + apply Qlt_bool_false_iff. intros H. apply Qlt_bool_false_iff in E2. apply E2.
      apply H2, Hfifth. exact H.
Qed.

(** Beyond that range the comparisons can differ: for 2^56 - 1 against
    5 * 2^56 the exact ratio is below one fifth and the binary64 quotient is
    the literal 0.2 itself. *)
Example binary64_differs_on_huge_counts :
  (Qmake (2 ^ 56 - 1) (Z.to_pos (5 * 2 ^ 56)) < 0.2)%Q /\
  Binary64.divide (2 ^ 56 - 1) (5 * 2 ^ 56) = Binary64.divide 1 5.
Proof. split; vm_compute; reflexivity. Qed.

(** ** The quality filter *)

Section QualityFilterProperties.

Context {U : Unicode} {D : LangDetect}.

(** Enter the body of [quality_check] when the division succeeds. *)
Ltac enter_ladder en cy :=
  unfold quality_check; cbv zeta;
  fold (token_count en); fold (token_count cy);
  rewrite truediv_positive by lia; cbn [bind];
  fold (length_ratio en cy).

(** [deciding_rule] names the [return] that [quality_check] takes. *)
Lemma quality_check_by_rule (en cy : str) :
  quality_check en cy = bind (deciding_rule en cy) (fun r => Ok (decision r)).
Proof.
  unfold quality_check, deciding_rule; cbv zeta.
  destruct (truediv _ _) as [ratio|e]; cbn [bind]; [|reflexivity].
  repeat match goal with
         | |- context [if ?b then _ else _] => destruct b; [reflexivity|]
         end.
  reflexivity.
Qed.

Lemma short_and_similar_test (en cy : str) :
  (token_count en <? 10) && (token_count cy <? 10)
    && Qlt_bool 0.5%Q (length_ratio en cy) = true
  <-> short_and_similar en cy.
Proof.
  unfold short_and_similar.
  rewrite !andb_true_iff, !Nat.ltb_lt, Qlt_bool_iff. tauto.
Qed.

Lemma positive_ratio_has_token (en cy : str) :
  (0 < length_ratio en cy)%Q -> 0 < Nat.max (token_count en) (token_count cy).
Proof.
  unfold length_ratio, Qlt; simpl.
  destruct (token_count en), (token_count cy); simpl; lia.
Qed.

Lemma language_detection_rejects_iff (en cy : str) :
  language_detection_rejects en cy = true <-> detection_contradicts en cy.
Proof.
  unfold language_detection_rejects, detection_contradicts.
  destruct (detect en) as [l1|] eqn:E1.
  2:{ split; [discriminate | intros (? & ? & ? & _); discriminate]. }
  destruct (detect cy) as [l2|] eqn:E2.
  2:{ split; [discriminate | intros (? & ? & _ & ? & _); discriminate]. }
  rewrite andb_true_iff, !negb_true_iff. split.
  - intros [H1 H2]. exists l1, l2. repeat split.
    + intros ->. rewrite (proj2 (str_eqb_eq _ _) eq_refl) in H1. discriminate.
    + intros ->. rewrite (proj2 (str_eqb_eq _ _) eq_refl) in H2. discriminate.
  - intros (a & b & [= <-] & [= <-] & Ha & Hb). split.
    + destruct (str_eqb l1 (lit "en")) eqn:E; [|reflexivity].
      apply str_eqb_eq in E. contradiction.
    + destruct (str_eqb l2 (lit "cy")) eqn:E; [|reflexivity].
      apply str_eqb_eq in E. contradiction.
Qed.

Lemma common_count_positive (text : str) (common : list str) :
  has_common_word text common ->
  (length (intersection (set_of (split (lower text))) common) =? 0) = false.
Proof.
  intros (w & Hw & Hc). apply length_zero_no_element. exists w.
  apply intersection_In. split; [apply set_of_In|]; assumption.
Qed.

Lemma proper_noun_extracted (word text : str) :
  probable_proper_noun word text -> In (lower word) (extract_probable_entities text).
Proof.
  intros (Hin & Hlen & c & rest & -> & Hup).
  unfold extract_probable_entities. cbv zeta.
  apply set_of_In, in_map, filter_In. split; [assumption|].
  rewrite Hup. apply Nat.ltb_lt in Hlen. rewrite Hlen. reflexivity.
Qed.

Lemma common_count_zero_iff (text : str) (common : list str) :
  (length (intersection (set_of (split (lower text))) common) =? 0) = true
  <-> ~ has_common_word text common.
Proof.
  split.
  - intros Hz Hc. apply common_count_positive in Hc. congruence.
  - intros Hn.
    destruct (length (intersection (set_of (split (lower text))) common) =? 0) eqn:E;
      [reflexivity|].
    apply length_zero_no_element in E. destruct E as (w & Hw).
    apply intersection_In in Hw. destruct Hw as [Hw Hc].
    apply (proj1 (set_of_In _ _)) in Hw.
    exfalso. apply Hn. exists w. split; assumption.
Qed.

(** The common-word rule: a pair that rules 1 and 2 leave undecided and in
    which the first text has no common English word, or the second no common
    Welsh word, is rejected. *)
Lemma no_common_word_rejected (en cy : str) :
  0 < Nat.max (token_count en) (token_count cy) ->
  ~ short_and_similar en cy ->
  ~ (length_ratio en cy < 0.2)%Q ->
  ~ has_common_word en common_en_words \/ ~ has_common_word cy common_cy_words ->
  quality_check en cy = Ok false.
Proof.
  intros Hpos Hshort Hratio Hnone.
  enter_ladder en cy.
  destruct ((token_count en <? 10) && (token_count cy <? 10)
            && Qlt_bool 0.5%Q (length_ratio en cy)) eqn:Short.
  { apply short_and_similar_test in Short. contradiction. }
  rewrite (proj2 (Qlt_bool_false_iff _ _) Hratio).
  destruct Hnone as [H | H]; apply common_count_zero_iff in H; rewrite H.
  - reflexivity.
  - rewrite orb_true_r. reflexivity.
Qed.

(** The shared-evidence rule, once it is reached. *)
Lemma shared_evidence_decides (en cy : str) :
  reaches_shared_evidence en cy ->
  share_proper_noun en cy \/ share_numeral en cy ->
  quality_check en cy = Ok true.
Proof.
  intros (Hpos & Hshort & Hratio & Hen & Hcy & Hdetect) Hshare.
  enter_ladder en cy.
  destruct ((token_count en <? 10) && (token_count cy <? 10)
            && Qlt_bool 0.5%Q (length_ratio en cy)) eqn:Short.
  { apply short_and_similar_test in Short. contradiction. }
  rewrite (proj2 (Qlt_bool_false_iff _ _) Hratio).
  rewrite (common_count_positive Hen), (common_count_positive Hcy). cbn [orb].
  destruct (language_detection_rejects en cy) eqn:Rej.
  { apply language_detection_rejects_iff in Rej. contradiction. }
  match goal with |- (if 0 <? length ?l then _ else _) = _ =>
    assert (Hne : exists x, In x l) end.
  { destruct Hshare as [(w1 & w2 & H1 & H2 & Heq) | (run & H1 & H2)].
    - exists (lower w1). apply union_In. left. apply intersection_In. split.
      + apply proper_noun_extracted; assumption.
      + rewrite Heq. apply proper_noun_extracted; assumption.
    - exists run. apply union_In. right. apply intersection_In.
      split; apply set_of_In; assumption. }
  apply length_zero_no_element in Hne. apply Nat.eqb_neq in Hne.
  match goal with |- (if 0 <? ?n then _ else _) = _ =>
    replace (0 <? n) with true by (symmetry; apply Nat.ltb_lt; lia) end.
  reflexivity.
Qed.

(** C3. A pair whose token counts are not both below 10 and whose length
    ratio is strictly below 0.2 is rejected; in particular every pair of 50
    tokens against 5 tokens has ratio 0.1 and is rejected. *)
Theorem gross_length_mismatch_rejected :
  (forall en cy : str,
      ~ (token_count en < 10 /\ token_count cy < 10) ->
      (length_ratio en cy < 0.2)%Q ->
      quality_check en cy = Ok false)
  /\
  (forall en cy : str,
      token_count en = 50 -> token_count cy = 5 ->
      (length_ratio en cy == 0.1)%Q /\ quality_check en cy = Ok false).
Proof.
  assert (General : forall en cy : str,
             ~ (token_count en < 10 /\ token_count cy < 10) ->
             (length_ratio en cy < 0.2)%Q -> quality_check en cy = Ok false).
  { intros en cy Hlong Hratio.
    assert (Hpos : 0 < Nat.max (token_count en) (token_count cy)) by lia.
    enter_ladder en cy.
    destruct ((token_count en <? 10) && (token_count cy <? 10)
              && Qlt_bool 0.5%Q (length_ratio en cy)) eqn:Short.
    - apply short_and_similar_test in Short. destruct Short as (? & ? & _). tauto.
    - apply Qlt_bool_iff in Hratio. rewrite Hratio. reflexivity. }
  split; [exact General|].
  intros en cy Hen Hcy.
  assert (Hr : (length_ratio en cy == 0.1)%Q).
  { unfold length_ratio. rewrite Hen, Hcy. reflexivity. }
  split; [exact Hr|].
  apply General; [lia|]. rewrite Hr. reflexivity.
Qed.

(** C4. A pair in which both texts have fewer than 10 tokens and the length
    ratio exceeds 0.5 is accepted, and it is the first [return] that decides:
    no later rule is evaluated, whatever the character tables and the
    language detector are.  "The cat sat" (3 tokens) against "Y gath yn
    eistedd" (4 tokens, ratio 0.75) is accepted. *)
Theorem short_similar_accepted :
  (forall en cy : str,
      token_count en < 10 -> token_count cy < 10 ->
      (0.5 < length_ratio en cy)%Q ->
      quality_check en cy = Ok true /\ deciding_rule en cy = Ok ShortSimilar)
  /\
  (token_count the_cat_sat = 3 /\ token_count y_gath_yn_eistedd = 4 /\
   (length_ratio the_cat_sat y_gath_yn_eistedd == 0.75)%Q /\
   quality_check the_cat_sat y_gath_yn_eistedd = Ok true).
Proof.
  assert (General : forall en cy : str,
             token_count en < 10 -> token_count cy < 10 ->
             (0.5 < length_ratio en cy)%Q ->
             quality_check en cy = Ok true /\ deciding_rule en cy = Ok ShortSimilar).
  { intros en cy Hen Hcy Hratio.
    assert (Hpos : 0 < Nat.max (token_count en) (token_count cy)).
    { apply positive_ratio_has_token.
      apply Qlt_trans with (y := 0.5%Q); [reflexivity | exact Hratio]. }
    assert (Hrule : deciding_rule en cy = Ok ShortSimilar).
    { unfold deciding_rule; cbv zeta.
      fold (token_count en); fold (token_count cy).
      rewrite truediv_positive by lia; cbn [bind].
      fold (length_ratio en cy).
      rewrite (proj2 (short_and_similar_test en cy)); [reflexivity|].
      repeat split; assumption. }
    split; [|exact Hrule].
    rewrite quality_check_by_rule, Hrule. reflexivity. }
  split; [exact General|].
  split; [reflexivity|]. split; [reflexivity|]. split; [vm_compute; reflexivity|].
  apply General; vm_compute; reflexivity || lia.
Qed.

(** C10. With no token in either text the divisor of the length ratio is
    zero and [quality_check] raises ZeroDivisionError (so for two empty
    strings); with a token in one of the texts the divisor is positive and
    [quality_check] returns a decision. *)
Theorem quality_check_total_iff_token :
  (forall en cy : str,
      split en = [] -> split cy = [] ->
      Nat.max (token_count en) (token_count cy) = 0 /\
      quality_check en cy = Raise ZeroDivisionError)
  /\
  (forall en cy : str,
      split en <> [] \/ split cy <> [] ->
      0 < Nat.max (token_count en) (token_count cy) /\
      exists decision : bool, quality_check en cy = Ok decision)
  /\
  quality_check [] [] = Raise ZeroDivisionError.
Proof.
  split; [|split].
  - intros en cy Hen Hcy. unfold token_count, quality_check.
    rewrite Hen, Hcy. split; reflexivity.
  - intros en cy Htoken.
    assert (Hpos : 0 < Nat.max (token_count en) (token_count cy)).
    { unfold token_count.
      destruct Htoken as [H | H]; [destruct (split en) | destruct (split cy)];
        try congruence; cbn [length]; lia. }
    split; [exact Hpos|].
    enter_ladder en cy.
    repeat match goal with
           | |- exists d, (if ?b then _ else _) = _ => destruct b
           | |- exists d, Ok ?v = Ok d => exists v; reflexivity
           end.
  - reflexivity.
Qed.

(** C5. A pair that reaches the shared-evidence rule (rules 1 to 4 are
    inconclusive) and shares a probable proper noun or a numeral is
    accepted; "Visit London in 2024" against "Ymweld â London yn 2024" is
    accepted. *)
Theorem shared_evidence_accepted :
  (forall en cy : str,
      reaches_shared_evidence en cy ->
      share_proper_noun en cy \/ share_numeral en cy ->
      quality_check en cy = Ok true)
  /\
  quality_check visit_london ymweld_a_london = Ok true.
Proof.
  split.
  - exact shared_evidence_decides.
  - reflexivity.
Qed.

End QualityFilterProperties.

Lemma gross_length_mismatch_rejected_witness :
  token_count fifty_tokens = 50 /\ token_count five_tokens = 5 /\
  quality_check (U := latin1) (D := detect_nothing) fifty_tokens five_tokens = Ok false.
Proof.
  split; [reflexivity|]. split; [reflexivity|].
  apply (proj1 (@gross_length_mismatch_rejected latin1 detect_nothing)).
  - intros [H _]. vm_compute in H. lia.
  - vm_compute. reflexivity.
Defined.

Lemma short_similar_accepted_witness :
  quality_check (U := latin1) (D := detect_nothing) the_cat_sat y_gath_yn_eistedd
  = Ok true /\
  deciding_rule (U := latin1) (D := detect_nothing) the_cat_sat y_gath_yn_eistedd
  = Ok ShortSimilar.
Proof.
  apply (proj1 (@short_similar_accepted latin1 detect_nothing)).
  - vm_compute. lia.
  - vm_compute. lia.
  - vm_compute. reflexivity.
Defined.

Lemma quality_check_total_iff_token_witness :
  quality_check (U := latin1) (D := detect_nothing) (lit "   ") [] = Raise ZeroDivisionError
  /\ exists decision : bool,
       quality_check (U := latin1) (D := detect_nothing) the_cat_sat [] = Ok decision.
Proof.
  split.
  - apply (proj1 (@quality_check_total_iff_token latin1 detect_nothing)); reflexivity.
  - apply (proj1 (proj2 (@quality_check_total_iff_token latin1 detect_nothing))).
    left. vm_compute. discriminate.
Defined.

(** The report pair reaches the shared-evidence rule under every detector
    that does not contradict it. *)
Lemma report_reaches_shared_evidence (D : LangDetect) :
  ~ detection_contradicts report_en report_cy ->
  reaches_shared_evidence (U := latin1) report_en report_cy.
Proof.
  intros Hdetect. unfold reaches_shared_evidence.
  split; [vm_compute; lia|].
  split; [intros (H & _); vm_compute in H; lia|].
  split; [intros H; vm_compute in H; discriminate|].
  split; [exists (lit "the"); split; apply mem_In; reflexivity|].
  split; [exists (lit "mae"); split; apply mem_In; reflexivity|].
  exact Hdetect.
Qed.

Lemma report_shares_numeral : share_numeral (U := latin1) report_en report_cy.
Proof. exists (lit "2024"). split; apply mem_In; reflexivity. Qed.

(** The London pair has 4 and 5 tokens: it is short and similar, and it is
    the first rule that accepts it, under every detector. *)
Remark visit_london_decided_by_first_rule (U : Unicode) (D : LangDetect) :
  short_and_similar visit_london ymweld_a_london /\
  deciding_rule visit_london ymweld_a_london = Ok ShortSimilar.
Proof.
  split; [|reflexivity].
  unfold short_and_similar. repeat split; vm_compute; reflexivity || lia.
Qed.

(** It also has a proper noun and a numeral in common. *)
Remark visit_london_shares_evidence :
  share_proper_noun (U := latin1) visit_london ymweld_a_london /\
  share_numeral (U := latin1) visit_london ymweld_a_london.
Proof.
  split.
  - exists (lit "London"), (lit "London").
    repeat split; try (apply mem_In; reflexivity); try (vm_compute; lia).
    + exists 76%N, (lit "ondon"). split; reflexivity.
    + exists 76%N, (lit "ondon"). split; reflexivity.
  - exists (lit "2024"). split; apply mem_In; reflexivity.
Qed.

Lemma shared_evidence_accepted_witness :
  quality_check (U := latin1) (D := detect_always "en") report_en report_cy = Ok true.
Proof.
  apply (proj1 (@shared_evidence_accepted latin1 (detect_always "en"))).
  - apply report_reaches_shared_evidence.
    intros (a & b & Ha & _ & Hne & _). injection Ha as <-. apply Hne. reflexivity.
  - right. exact report_shares_numeral.
Defined.

(** C6. [quality_check] is not symmetric.  For the report pair, under every
    detector that does not contradict it, the English text against the Welsh
    one is accepted and the swapped pair is rejected: the Welsh text, in
    first position, is checked against the English common words and has
    none of them. *)
Theorem quality_check_not_symmetric :
  forall D : LangDetect,
    ~ detection_contradicts report_en report_cy ->
    quality_check (U := latin1) report_en report_cy = Ok true /\
    ~ has_common_word (U := latin1) report_cy common_en_words /\
    quality_check (U := latin1) report_cy report_en = Ok false /\
    quality_check (U := latin1) report_en report_cy
      <> quality_check (U := latin1) report_cy report_en.
Proof.
  intros D Hdetect.
  assert (Hforward : quality_check (U := latin1) report_en report_cy = Ok true).
  { apply shared_evidence_decides.
    - apply report_reaches_shared_evidence; exact Hdetect.
    - right. exact report_shares_numeral. }
  assert (Hnone : ~ has_common_word (U := latin1) report_cy common_en_words).
  { apply common_count_zero_iff. reflexivity. }
  assert (Hbackward : quality_check (U := latin1) report_cy report_en = Ok false).
  { apply no_common_word_rejected.
    - vm_compute; lia.
    - intros (H & _); vm_compute in H; lia.
    - intros H; vm_compute in H; discriminate.
    - left. exact Hnone. }
  repeat split; try assumption.
  rewrite Hforward, Hbackward. discriminate.
Qed.

Lemma quality_check_not_symmetric_witness :
  quality_check (U := latin1) (D := detect_nothing) report_en report_cy
  <> quality_check (U := latin1) (D := detect_nothing) report_cy report_en.
Proof.
  apply (@quality_check_not_symmetric detect_nothing).
  intros (a & b & Ha & _). vm_compute in Ha. discriminate.
Defined.

(** Without the hypothesis on the detector the asymmetry is lost: under a
    detector that contradicts every pair, [quality_check] is symmetric. *)
Lemma symmetric_under_contradicting_detector (U : Unicode) (en cy : str) :
  quality_check (D := detect_always "fr") en cy
  = quality_check (D := detect_always "fr") cy en.
Proof.
  assert (Hrej : forall a b, language_detection_rejects (D := detect_always "fr") a b = true)
    by reflexivity.
  assert (Hsym : length_ratio cy en = length_ratio en cy).
  { unfold length_ratio. rewrite Nat.min_comm, Nat.max_comm. reflexivity. }
  destruct (Nat.eq_dec (Nat.max (token_count en) (token_count cy)) 0) as [Hz | Hnz].
  - unfold quality_check. fold (token_count en). fold (token_count cy).
    rewrite (Nat.max_comm (token_count cy)), Hz. reflexivity.
  - unfold quality_check at 1; cbv zeta.
    fold (token_count en); fold (token_count cy).
    rewrite truediv_positive by lia; cbn [bind]. fold (length_ratio en cy).
    unfold quality_check; cbv zeta.
    fold (token_count en); fold (token_count cy).
    rewrite truediv_positive by lia; cbn [bind]. fold (length_ratio cy en).
    rewrite Hsym, !Hrej.
    rewrite (andb_comm (token_count cy <? 10) (token_count en <? 10)).
    destruct ((token_count en <? 10) && (token_count cy <? 10)
              && Qlt_bool 0.5%Q (length_ratio en cy)); [reflexivity|].
    destruct (Qlt_bool (length_ratio en cy) 0.2%Q); [reflexivity|].
    repeat match goal with |- context [if ?b then _ else _] => destruct b end;
      reflexivity.
Qed.

(** ** The scraper *)

Section ScraperProperties.

Context {W : Web} {C : Config}.

Lemma scrape_page_fetched (url : str) (delay : N) (response : content) (sp : soup) :
  REQUEST_DELAY = Some delay ->
  session_get url = Ok response ->
  BeautifulSoup response = Ok sp ->
  scrape_page url = Ok (map md_strip_a (find_all_articles sp)).
Proof.
  intros Hdelay Hget Hparse. unfold scrape_page, time_sleep.
  rewrite Hdelay; cbn [load_global bind].
  rewrite Hget; cbn [bind]. rewrite Hparse; cbn [bind try_except].
  reflexivity.
Qed.

(** With the name unbound the read raises inside the [try], before the
    fetch, and the handler returns the empty list. *)
Lemma scrape_page_unbound (url : str) :
  REQUEST_DELAY = None -> scrape_page url = Ok [].
Proof.
  intros Hdelay. unfold scrape_page. rewrite Hdelay. reflexivity.
Qed.

Lemma scrape_page_returns (url : str) : exists articles, scrape_page url = Ok articles.
Proof.
  unfold scrape_page, time_sleep.
  destruct REQUEST_DELAY as [delay|]; cbn [load_global bind try_except]; [|eauto].
  destruct (session_get url) as [response|e]; cbn [bind try_except]; [|eauto].
  destruct (BeautifulSoup response) as [sp|e]; cbn [bind try_except]; eauto.
Qed.

(** Once [REQUEST_DELAY] is bound, a page that is fetched and parsed and has
    k elements with the announcement-article marker gives k blocks, the
    i-th being the markdown conversion, links stripped, of the i-th matched
    element. *)
Lemma scrape_page_blocks_when_bound :
  forall (url : str) (delay : N) (response : content) (sp : soup) (k : nat),
    REQUEST_DELAY = Some delay ->
    session_get url = Ok response ->
    BeautifulSoup response = Ok sp ->
    length (find_all_articles sp) = k ->
    exists blocks : list str,
      scrape_page url = Ok blocks /\
      length blocks = k /\
      forall i : nat,
        nth_error blocks i = option_map md_strip_a (nth_error (find_all_articles sp) i).
Proof.
  intros url delay response sp k Hdelay Hget Hparse Hk.
  exists (map md_strip_a (find_all_articles sp)).
  split; [apply scrape_page_fetched with (delay := delay) (response := response);
          assumption|].
  split; [rewrite length_map; exact Hk|].
  intros i. apply nth_error_map.
Qed.

(** C8. When the fetch or the parse inside [scrape_page] raises,
    [scrape_page] returns the empty list; and whatever happens it returns a
    list, so no exception reaches its caller. *)
Theorem scrape_page_failure_empty :
  forall url : str,
    (forall e, session_get url = Raise e -> scrape_page url = Ok [])
    /\
    (forall response e,
        session_get url = Ok response -> BeautifulSoup response = Raise e ->
        scrape_page url = Ok [])
    /\
    (forall e, scrape_page url <> Raise e).
Proof.
  intros url. split; [|split].
  - intros e Hget. unfold scrape_page, time_sleep.
    destruct REQUEST_DELAY as [delay|]; cbn [load_global bind try_except];
      [|reflexivity].
    rewrite Hget. reflexivity.
  - intros response e Hget Hparse. unfold scrape_page, time_sleep.
    destruct REQUEST_DELAY as [delay|]; cbn [load_global bind try_except];
      [|reflexivity].
    rewrite Hget; cbn [bind]. rewrite Hparse. reflexivity.
  - intros e He. destruct (scrape_page_returns url) as [articles Hok]. congruence.
Qed.

End ScraperProperties.

(** C2. As script.py never binds [REQUEST_DELAY], [scrape_page] returns the
    empty list for every URL and every site: the read of the name raises
    NameError inside the [try] and the handler returns [[]].  So it does for
    the news page of the bilingual site, which is fetched and parsed and has
    three elements with the announcement-article marker; with the name bound
    the same page gives its three blocks. *)
Theorem scrape_page_unbound_delay_empty :
  (forall (W : Web) (url : str), scrape_page (C := as_shipped) url = Ok [])
  /\
  (session_get (Web := table_web bilingual_site) news_en
     = Ok (Page (Some news_cy) [report_en; fifty_tokens; the_cat_sat]) /\
   BeautifulSoup (Web := table_web bilingual_site)
                 (Page (Some news_cy) [report_en; fifty_tokens; the_cat_sat])
     = Ok (Some news_cy, [report_en; fifty_tokens; the_cat_sat]) /\
   length (find_all_articles (Web := table_web bilingual_site)
             (Some news_cy, [report_en; fifty_tokens; the_cat_sat])) = 3 /\
   scrape_page (W := table_web bilingual_site) (C := as_shipped) news_en = Ok [] /\
   scrape_page (W := table_web bilingual_site) (C := no_delay) news_en
     = Ok [report_en; fifty_tokens; the_cat_sat]).
Proof.
  split.
  - intros W url. apply scrape_page_unbound. reflexivity.
  - split; [vm_compute; reflexivity|]. split; [reflexivity|].
    split; [reflexivity|]. split; [reflexivity|]. vm_compute. reflexivity.
Qed.

(** ** Sitemap enumeration and pair discovery *)

Section EnumerationProperties.

Context {W : Web}.

(** The loop over the child sitemaps stops at the first one that raises. *)
Lemma fetch_sitemaps_raises (before after : list str) (failing : str) (e : exn) :
  (forall s, In s before -> exists urls, get_urls s = Ok urls) ->
  get_urls failing = Raise e ->
  forall all_page_urls,
    fetch_sitemaps (before ++ failing :: after) all_page_urls = Raise e.
Proof.
  intros Hbefore Hfail.
  induction before as [|s before IH]; intros acc; simpl.
  - rewrite Hfail. reflexivity.
  - destruct (Hbefore s (or_introl eq_refl)) as [urls Hs]. rewrite Hs; cbn [bind].
    apply IH. intros s' Hin. apply Hbefore. right; exact Hin.
Qed.

Lemma find_language_pair_returns (url : str) :
  exists pair, find_language_pair url = Ok pair.
Proof.
  unfold find_language_pair.
  destruct (session_get url) as [response|e]; cbn [bind try_except]; [|eauto].
  destruct (BeautifulSoup response) as [sp|e]; cbn [bind try_except]; [|eauto].
  destruct (get_language_switch_url sp url) as [[[|c welsh_url]|]|e];
    cbn [bind try_except]; eauto.
Qed.

Lemma collect_pairs_none (completed : list (result (option (str * str))))
    (url_pairs : list (str * str)) :
  Forall (fun future => future = Ok None) completed ->
  collect_pairs completed url_pairs = Ok url_pairs.
Proof.
  induction 1 as [|future rest Hnone _ IH]; simpl; [reflexivity|].
  rewrite Hnone; cbn [bind]. exact IH.
Qed.

Lemma collect_pairs_returns (completed : list (result (option (str * str))))
    (url_pairs : list (str * str)) :
  Forall (fun future => exists pair, future = Ok pair) completed ->
  exists all_pairs, collect_pairs completed url_pairs = Ok all_pairs.
Proof.
  intros H; revert url_pairs.
  induction H as [|future rest [pair ->] _ IH]; intros acc; simpl; [eauto|].
  destruct pair; apply IH.
Qed.

End EnumerationProperties.

(** C1. On a sitemap index with two children of which the first cannot be
    fetched (or is not a sitemap document), the enumeration does not go on
    to the second child: the exception leaves the loop and ends the run in
    the handler of [main], although the second child alone yields two page
    URLs.  No resolver runs and the output file is left as it was. *)
Theorem child_sitemap_failure_aborts_run :
  forall (U : Unicode) (D : LangDetect) (C : Config) (S : Scheduler) (prior : option str),
    (get_urls (W := table_web site_with_unreachable_sitemap) sitemap_1
       = Raise ConnectionError /\
     get_urls (W := table_web site_with_unreachable_sitemap) sitemap_2
       = Ok [news_en; about_en] /\
     enumerate_pages (W := table_web site_with_unreachable_sitemap)
       = Raise ConnectionError /\
     main (W := table_web site_with_unreachable_sitemap) prior
       = {| output_file := prior; resolver_units := []; scrape_units := [];
            unexpected_error := Some ConnectionError |})
    /\
    (get_urls (W := table_web site_with_malformed_sitemap) sitemap_1 = Raise ParseError /\
     get_urls (W := table_web site_with_malformed_sitemap) sitemap_2
       = Ok [news_en; about_en] /\
     enumerate_pages (W := table_web site_with_malformed_sitemap) = Raise ParseError /\
     main (W := table_web site_with_malformed_sitemap) prior
       = {| output_file := prior; resolver_units := []; scrape_units := [];
            unexpected_error := Some ParseError |}).
Proof.
  intros U D C S prior.
  split; repeat split; reflexivity.
Qed.

(** ** The two phases *)

Section PhaseProperties.

Context {U : Unicode} {D : LangDetect} {W : Web} {C : Config} {S : Scheduler}.

Lemma as_completed_In (A : Type) (phase : nat) (l : list A) (x : A) :
  In x (as_completed phase l) -> In x l.
Proof. apply Permutation_in, as_completed_perm. Qed.

Lemma as_completed_nil (A : Type) (phase : nat) : as_completed phase (@nil A) = [].
Proof. apply Permutation_nil, Permutation_sym, as_completed_perm. Qed.

(** C9. When the enumeration has handed its pages to Phase 1 and every
    resolver call yields no pair, no pair is submitted to Phase 2, and the
    output file exists and is empty at the end of the run, whatever it held
    before. *)
Theorem no_pair_no_scrape_empty_output :
  forall (prior : option str) (all_page_urls : list str),
    enumerate_pages = Ok all_page_urls ->
    (forall url, In url all_page_urls -> find_language_pair url = Ok None) ->
    resolver_units (main prior) = all_page_urls /\
    scrape_units (main prior) = [] /\
    output_file (main prior) = Some [] /\
    unexpected_error (main prior) = None.
Proof.
  intros prior all_page_urls Hpages Hnone.
  unfold main. rewrite Hpages.
  rewrite collect_pairs_none.
  - cbn [map]. rewrite as_completed_nil. repeat split; reflexivity.
  - apply Forall_forall. intros future Hin.
    apply as_completed_In, in_map_iff in Hin.
    destruct Hin as (url & <- & Hurl). apply Hnone; exact Hurl.
Qed.

End PhaseProperties.

Lemma no_pair_no_scrape_empty_output_witness :
  output_file
    (main (U := latin1) (D := detect_nothing) (W := table_web monolingual_site)
          (C := no_delay) (S := reversed) (Some (lit "an earlier run")))
  = Some [].
Proof.
  apply (@no_pair_no_scrape_empty_output latin1 detect_nothing
           (table_web monolingual_site) no_delay reversed
           (Some (lit "an earlier run")) [news_en; about_en]).
  - reflexivity.
  - intros url [<- | [<- | []]]; reflexivity.
Defined.

Lemma scrape_page_blocks_when_bound_witness :
  exists blocks : list str,
    scrape_page (W := table_web bilingual_site) (C := no_delay) news_en = Ok blocks /\
    length blocks = 3 /\
    forall i : nat, nth_error blocks i
      = option_map (fun t => t) (nth_error [report_en; fifty_tokens; the_cat_sat] i).
Proof.
  apply (@scrape_page_blocks_when_bound (table_web bilingual_site) no_delay news_en 0%N
           (Page (Some news_cy) [report_en; fifty_tokens; the_cat_sat])
           (Some news_cy, [report_en; fifty_tokens; the_cat_sat]) 3);
    vm_compute; reflexivity.
Defined.

Lemma scrape_page_failure_empty_witness :
  scrape_page (W := table_web monolingual_site) (C := no_delay) news_en = Ok [].
Proof.
  apply (proj1 (@scrape_page_failure_empty (table_web monolingual_site) no_delay news_en)
           ConnectionError).
  reflexivity.
Defined.

(** ** The JSON encoder against the reader *)

Lemma below_32_cases (P : N -> Prop) :
  Forall P (map N.of_nat (seq 0 32)) -> forall c : N, (c < 32)%N -> P c.
Proof.
  intros HP c Hc. rewrite Forall_forall in HP. apply HP.
  apply in_map_iff. exists (N.to_nat c). split; [apply N2Nat.id|].
  apply in_seq. lia.
Qed.

Lemma escape_char_plain (c : char) :
  (32 <= c)%N -> c <> 34%N -> c <> 92%N -> Json.escape_char c = [c].
Proof.
  intros H32 H34 H92. unfold Json.escape_char.
  repeat match goal with
         | |- context [(c =? ?k)%N] =>
           replace (c =? k)%N with false by (symmetry; apply N.eqb_neq; lia)
         end.
  replace (c <? 32)%N with false by (symmetry; apply N.ltb_ge; lia).
  reflexivity.
Qed.

(** The reader undoes the escape of one character. *)
Lemma scanstring_escape_char (c : char) (rest acc : str) :
  JsonReader.scanstring (Json.escape_char c ++ rest) acc
  = JsonReader.scanstring rest (c :: acc).
Proof.
  destruct (N.lt_ge_cases c 32) as [Hlow | Hhigh].
  - revert rest acc. pattern c. apply below_32_cases; [|exact Hlow].
    let l := eval vm_compute in (map N.of_nat (seq 0 32)) in
    change (map N.of_nat (seq 0 32)) with l.
    repeat (apply Forall_cons; [intros rest acc; reflexivity|]). apply Forall_nil.
  - destruct (N.eq_dec c 34) as [-> | H34]; [reflexivity|].
    destruct (N.eq_dec c 92) as [-> | H92]; [reflexivity|].
    rewrite escape_char_plain by assumption.
    cbn [app JsonReader.scanstring].
    replace (c =? 34)%N with false by (symmetry; apply N.eqb_neq; lia).
    replace (c =? 92)%N with false by (symmetry; apply N.eqb_neq; lia).
    replace (c <? 32)%N with false by (symmetry; apply N.ltb_ge; lia).
    reflexivity.
Qed.

Lemma scanstring_encoded (s rest acc : str) :
  JsonReader.scanstring (flat_map Json.escape_char s ++ 34%N :: rest) acc
  = Some (rev acc ++ s, rest).
Proof.
  revert acc; induction s as [|c s IH]; intros acc.
  - cbn. rewrite app_nil_r. reflexivity.
  - cbn [flat_map]. rewrite <- app_assoc, scanstring_escape_char, IH.
    cbn [rev]. rewrite <- app_assoc. reflexivity.
Qed.

Lemma parse_string_encoded (s rest : str) :
  JsonReader.parse_string (Json.encode_basestring s ++ rest) = Some (s, rest).
Proof.
  unfold Json.encode_basestring, JsonReader.parse_string.
  cbn [app JsonReader.skip_ws]. cbn.
  rewrite <- app_assoc. cbn [app]. apply scanstring_encoded.
Qed.

Lemma parse_string_space (s : str) :
  JsonReader.parse_string (32%N :: s) = JsonReader.parse_string s.
Proof. reflexivity. Qed.

Lemma parse_members_space (fuel : nat) (s : str) (acc : list (str * str)) :
  JsonReader.parse_members fuel (32%N :: s) acc = JsonReader.parse_members fuel s acc.
Proof. destruct fuel; reflexivity. Qed.

Lemma encode_basestring_head (s : str) :
  exists tail, Json.encode_basestring s = 34%N :: tail.
Proof. unfold Json.encode_basestring. cbn [app]. eauto. Qed.

(** The members after the first one: each is introduced by [", "]. *)
Lemma parse_members_encoded (items : list (str * str)) :
  forall (fuel : nat) (key value : str) (acc : list (str * str)),
    length items < fuel ->
    JsonReader.parse_members fuel
      (Json.encode_basestring key ++ lit ": " ++ Json.encode_basestring value
         ++ Json.encode_items false items ++ lit "}") acc
    = Some (acc ++ (key, value) :: items).
Proof.
  induction items as [|[key' value'] items IH]; intros fuel key value acc Hfuel;
    (destruct fuel as [|fuel]; [cbn [length] in Hfuel; lia|]);
    cbn [JsonReader.parse_members];
    rewrite parse_string_encoded;
    change (lit ": ") with [58%N; 32%N]; cbn [app];
    change (JsonReader.expect 58%N (58%N :: 32%N :: ?x)) with (Some (32%N :: x));
    cbv beta iota; rewrite parse_string_space, parse_string_encoded.
  - reflexivity.
  - cbn [Json.encode_items]. change (lit ", ") with [44%N; 32%N]. cbn [app].
    change (JsonReader.skip_ws (44%N :: ?x)) with (44%N :: x).
    cbv beta iota. change (44 =? 44)%N with true. cbv iota.
    rewrite parse_members_space.
    rewrite <- !app_assoc.
    rewrite IH by (cbn [length] in Hfuel; lia).
    rewrite <- app_assoc. reflexivity.
Qed.

Lemma encode_items_length (first : bool) (items : list (str * str)) :
  length items <= length (Json.encode_items first items).
Proof.
  revert first; induction items as [|[key value] items IH]; intros first;
    [apply Nat.le_refl|].
  cbn [Json.encode_items length]. rewrite !length_app.
  destruct (encode_basestring_head key) as [tail ->]. cbn [length].
  specialize (IH false). lia.
Qed.

(** Reading back what [dumps] wrote gives the items, in order. *)
Lemma loads_dumps (items : list (str * str)) :
  JsonReader.loads_object (Json.dumps items) = Some items.
Proof.
  destruct items as [|[key value] items]; [reflexivity|].
  unfold JsonReader.loads_object, Json.dumps.
  change (lit "{") with [123%N]. cbn [app].
  change (JsonReader.expect 123%N (123%N :: ?x)) with (Some x). cbv beta iota.
  cbn [Json.encode_items]. cbv iota. cbn [app].
  destruct (encode_basestring_head key) as [tail Hkey].
  replace (JsonReader.expect 125%N
             ((Json.encode_basestring key ++ lit ": " ++ Json.encode_basestring value
                 ++ Json.encode_items false items) ++ lit "}")) with (@None str)
    by (rewrite Hkey; reflexivity).
  rewrite <- !app_assoc.
  rewrite parse_members_encoded; [reflexivity|].
  cbn [length]. rewrite !length_app.
  pose proof (encode_items_length false items). lia.
Qed.

(** ** One record, one line *)

Lemma line_free_app (a b : str) : line_free a -> line_free b -> line_free (a ++ b).
Proof. intros Ha Hb. apply Forall_app. split; assumption. Qed.

Lemma line_free_check (s : str) :
  forallb (fun c => negb (c =? 10)%N && negb (c =? 13)%N) s = true -> line_free s.
Proof.
  intros H. apply Forall_forall. intros c Hc.
  rewrite forallb_forall in H. specialize (H c Hc).
  apply andb_true_iff in H. destruct H as [H10 H13].
  apply negb_true_iff in H10, H13. apply N.eqb_neq in H10, H13. tauto.
Qed.

Lemma escape_char_line_free (c : char) : line_free (Json.escape_char c).
Proof.
  destruct (N.lt_ge_cases c 32) as [Hlow | Hhigh].
  - pattern c. apply below_32_cases; [|exact Hlow].
    let l := eval vm_compute in (map N.of_nat (seq 0 32)) in
    change (map N.of_nat (seq 0 32)) with l.
    repeat (apply Forall_cons; [apply line_free_check; reflexivity|]). apply Forall_nil.
  - destruct (N.eq_dec c 34) as [-> | H34]; [apply line_free_check; reflexivity|].
    destruct (N.eq_dec c 92) as [-> | H92]; [apply line_free_check; reflexivity|].
    rewrite escape_char_plain by assumption.
    constructor; [lia | constructor].
Qed.

Lemma encode_basestring_line_free (s : str) : line_free (Json.encode_basestring s).
Proof.
  unfold Json.encode_basestring.
  apply line_free_app; [apply line_free_check; reflexivity|].
  apply line_free_app; [|apply line_free_check; reflexivity].
  induction s as [|c s IH]; [constructor|].
  cbn [flat_map]. apply line_free_app; [apply escape_char_line_free | exact IH].
Qed.

Lemma dumps_line_free (items : list (str * str)) : line_free (Json.dumps items).
Proof.
  unfold Json.dumps.
  apply line_free_app; [apply line_free_check; reflexivity|].
  apply line_free_app; [|apply line_free_check; reflexivity].
  generalize true as first.
  induction items as [|[key value] items IH]; intros first; [constructor|].
  cbn [Json.encode_items].
  apply line_free_app; [apply line_free_check; destruct first; reflexivity|].
  apply line_free_app; [apply encode_basestring_line_free|].
  apply line_free_app; [apply line_free_check; reflexivity|].
  apply line_free_app; [apply encode_basestring_line_free | apply IH].
Qed.

Lemma lines_from_line (body rest cur : str) :
  line_free body ->
  JsonReader.lines_from (body ++ 10%N :: rest) cur
  = (rev cur ++ body) :: JsonReader.lines_from rest [].
Proof.
  intros Hfree; revert cur.
  induction Hfree as [|c body [Hc _] _ IH]; intros cur.
  - cbn. rewrite app_nil_r. reflexivity.
  - cbn [app JsonReader.lines_from].
    replace (c =? 10)%N with false by (symmetry; apply N.eqb_neq; exact Hc).
    rewrite IH. cbn [rev]. rewrite <- app_assoc. reflexivity.
Qed.

Lemma lines_of_records (records : list (str * str * str)) :
  JsonReader.lines (concat (map record_line records)) = map record_json records.
Proof.
  unfold JsonReader.lines.
  induction records as [|r records IH]; [reflexivity|].
  cbn [map concat]. unfold record_line at 1. rewrite <- app_assoc. cbn [app].
  rewrite lines_from_line.
  - cbn [rev app]. rewrite IH. reflexivity.
  - destruct r as [[en cy] url]. apply dumps_line_free.
Qed.

Lemma record_roundtrip (r : str * str * str) :
  JsonReader.loads_object (record_json r) = Some (record_object r).
Proof. destruct r as [[en cy] url]. apply loads_dumps. Qed.

(** ** What the run writes *)

Lemma combine_In_nth_error (A B : Type) (l1 : list A) (l2 : list B) (a : A) (b : B) :
  In (a, b) (combine l1 l2) ->
  exists i, nth_error l1 i = Some a /\ nth_error l2 i = Some b.
Proof.
  revert l2; induction l1 as [|x l1 IH]; intros [|y l2] Hin; try contradiction.
  destruct Hin as [[= -> ->] | Hin].
  - exists 0. split; reflexivity.
  - destruct (IH _ Hin) as (i & H1 & H2). exists (Datatypes.S i). split; assumption.
Qed.

Section WriterProperties.

Context {U : Unicode} {D : LangDetect} {W : Web} {C : Config} {S : Scheduler}.

Lemma write_results_appends (results : list (str * str * str)) (f : str) :
  write_results results f = f ++ concat (map record_line results).
Proof.
  revert f; induction results as [|[[en cy] url] results IH]; intros f.
  - cbn. rewrite app_nil_r. reflexivity.
  - cbn [write_results map concat]. rewrite IH.
    unfold record_line, record_json. rewrite <- !app_assoc. reflexivity.
Qed.

(** The text after the loop over the completed futures is the text before it
    followed by the lines of records that futures returned. *)
Lemma write_completed_written
    (completed : list (result (list (str * str * str)))) (f : str) :
  exists written : list (str * str * str),
    fst (write_completed completed f) = f ++ concat (map record_line written) /\
    forall r, In r written -> exists results, In (Ok results) completed /\ In r results.
Proof.
  revert f; induction completed as [|[results|e] completed IH]; intros f.
  - exists []. cbn. rewrite app_nil_r. split; [reflexivity | contradiction].
  - cbn [write_completed]. rewrite write_results_appends.
    destruct (IH (f ++ concat (map record_line results))) as (written & Hf & Hfrom).
    exists (results ++ written). split.
    + rewrite Hf, map_app, concat_app, <- app_assoc. reflexivity.
    + intros r Hr. apply in_app_or in Hr. destruct Hr as [Hr | Hr].
      * exists results. split; [left; reflexivity | exact Hr].
      * destruct (Hfrom r Hr) as (results' & Hin & Hr').
        exists results'. split; [right; exact Hin | exact Hr'].
  - exists []. cbn. rewrite app_nil_r. split; [reflexivity | contradiction].
Qed.

Lemma check_pairs_accepted (en_url : str) (zipped : list (str * str)) :
  forall valid_pairs results,
    check_pairs en_url zipped valid_pairs = Ok results ->
    forall r, In r results ->
      In r valid_pairs \/
      exists en cy, r = (en, cy, en_url) /\ In (en, cy) zipped /\
                    quality_check en cy = Ok true.
Proof.
  induction zipped as [|[en cy] zipped IH]; intros valid_pairs results Hcheck r Hr.
  - injection Hcheck as <-. left; exact Hr.
  - cbn [check_pairs] in Hcheck.
    destruct (quality_check en cy) as [[|]|e] eqn:Hq; cbn [bind] in Hcheck;
      try discriminate.
    + destruct (IH _ _ Hcheck r Hr) as [Hin | (en' & cy' & -> & Hin & Hq')].
      * apply in_app_or in Hin. destruct Hin as [Hin | [<- | []]].
        -- left; exact Hin.
        -- right. exists en, cy. repeat split; [left; reflexivity | exact Hq].
      * right. exists en', cy'. repeat split; [right; exact Hin | exact Hq'].
    + destruct (IH _ _ Hcheck r Hr) as [Hin | (en' & cy' & -> & Hin & Hq')].
      * left; exact Hin.
      * right. exists en', cy'. repeat split; [right; exact Hin | exact Hq'].
Qed.

Lemma process_url_pair_accepted (en_url cy_url : str) (results : list (str * str * str)) :
  process_url_pair en_url cy_url = Ok results ->
  forall r, In r results ->
    exists en cy en_articles cy_articles i,
      r = (en, cy, en_url) /\
      scrape_page en_url = Ok en_articles /\ scrape_page cy_url = Ok cy_articles /\
      nth_error en_articles i = Some en /\ nth_error cy_articles i = Some cy /\
      quality_check en cy = Ok true.
Proof.
  unfold process_url_pair. intros Hp r Hr.
  destruct (scrape_page en_url) as [en_articles|] eqn:Hen; [|discriminate].
  destruct (scrape_page cy_url) as [cy_articles|] eqn:Hcy; [|discriminate].
  cbn [bind] in Hp.
  destruct (check_pairs_accepted _ _ _ Hp r Hr) as [[] | (en & cy & -> & Hin & Hq)].
  destruct (combine_In_nth_error _ _ _ _ Hin) as (i & H1 & H2).
  exists en, cy, en_articles, cy_articles, i. repeat split; assumption.
Qed.

Lemma find_language_pair_english (url a b : str) :
  find_language_pair url = Ok (Some (a, b)) -> a = url.
Proof.
  unfold find_language_pair.
  destruct (session_get url) as [response|e]; cbn [bind try_except]; [|discriminate].
  destruct (BeautifulSoup response) as [sp|e]; cbn [bind try_except]; [|discriminate].
  destruct (get_language_switch_url sp url) as [[[|c welsh_url]|]|e];
    cbn [bind try_except]; congruence.
Qed.

Lemma collect_pairs_found (completed : list (result (option (str * str)))) :
  forall url_pairs all_pairs,
    collect_pairs completed url_pairs = Ok all_pairs ->
    forall p, In p all_pairs -> In p url_pairs \/ In (Ok (Some p)) completed.
Proof.
  induction completed as [|[[q|]|e] completed IH]; intros url_pairs all_pairs Hc p Hp;
    cbn [collect_pairs bind] in Hc; try discriminate.
  - injection Hc as <-. left; exact Hp.
  - destruct (IH _ _ Hc p Hp) as [Hin | Hin].
    + apply in_app_or in Hin. destruct Hin as [Hin | [<- | []]].
      * left; exact Hin.
      * right. left; reflexivity.
    + right. right; exact Hin.
  - destruct (IH _ _ Hc p Hp) as [Hin | Hin]; [left | right; right]; exact Hin.
Qed.

(** Pair discovery never raises: every resolver call returns. *)
Lemma phase_1_returns (all_page_urls : list str) :
  exists url_pairs,
    collect_pairs (as_completed 1 (map find_language_pair all_page_urls)) [] = Ok url_pairs /\
    forall en_url cy_url, In (en_url, cy_url) url_pairs ->
      In en_url all_page_urls /\ find_language_pair en_url = Ok (Some (en_url, cy_url)).
Proof.
  assert (Hreturn : Forall (fun future => exists pair, future = Ok pair)
                      (as_completed 1 (map find_language_pair all_page_urls))).
  { apply Forall_forall. intros future Hin.
    apply as_completed_In, in_map_iff in Hin. destruct Hin as (url & <- & _).
    apply find_language_pair_returns. }
  destruct (collect_pairs_returns [] Hreturn) as [url_pairs Hpairs].
  exists url_pairs. split; [exact Hpairs|].
  intros en_url cy_url Hin.
  destruct (collect_pairs_found _ _ Hpairs _ Hin) as [[] | Hfut].
  apply as_completed_In, in_map_iff in Hfut. destruct Hfut as (url & Hres & Hurl).
  pose proof (find_language_pair_english _ Hres) as ->.
  split; assumption.
Qed.

(** C7. When the enumeration has succeeded, the output file consists of the
    lines of a list of records: its lines are the JSON texts of the records,
    one per record; each of them has no line break inside, reads back as the
    object with exactly the keys en, cy and url holding the strings that
    were written, and holds two blocks at one index of an English page and
    its Welsh counterpart that the filter accepted, with the URL of the
    English page.  Characters outside ASCII are written as they are. *)
Theorem written_records_roundtrip :
  forall (prior : option str) (all_page_urls : list str),
    enumerate_pages = Ok all_page_urls ->
    exists records : list (str * str * str),
      output_file (main prior) = Some (concat (map record_line records)) /\
      JsonReader.lines (concat (map record_line records)) = map record_json records /\
      (forall r, In r records ->
         line_free (record_json r) /\
         JsonReader.loads_object (record_json r) = Some (record_object r) /\
         came_from all_page_urls r) /\
      (forall c : char, (128 <= c)%N -> Json.escape_char c = [c]).
Proof.
  intros prior all_page_urls Hpages.
  unfold main. rewrite Hpages.
  destruct (phase_1_returns all_page_urls) as (url_pairs & Hpairs & Hfound).
  rewrite Hpairs.
  set (completed := as_completed 2
         (map (fun p => process_url_pair (fst p) (snd p)) url_pairs)).
  destruct (write_completed_written completed []) as (written & Hf & Hfrom).
  destruct (write_completed completed []) as [f error]. cbn [fst app] in Hf. subst f.
  exists written. cbn [output_file].
  split; [reflexivity|]. split; [apply lines_of_records|]. split.
  - intros r Hr.
    split; [destruct r as [[en cy] url]; apply dumps_line_free|].
    split; [apply record_roundtrip|].
    destruct (Hfrom r Hr) as (results & Hin & Hres).
    apply as_completed_In, in_map_iff in Hin.
    destruct Hin as ([en_url cy_url] & Hproc & Hpair). cbn [fst snd] in Hproc.
    destruct (process_url_pair_accepted _ _ Hproc r Hres)
      as (en & cy & en_articles & cy_articles & i & -> & Hen & Hcy & H1 & H2 & Hq).
    destruct (Hfound _ _ Hpair) as [Hpage Hlink].
    exists cy_url, en_articles, cy_articles, i. repeat split; assumption.
  - intros c Hc. apply escape_char_plain; lia.
Qed.

End WriterProperties.

Lemma written_records_roundtrip_witness :
  exists records : list (str * str * str),
    output_file
      (main (U := latin1) (D := detect_nothing) (W := table_web bilingual_site)
            (C := no_delay) (S := in_order) None)
    = Some (concat (map record_line records)) /\
    JsonReader.lines (concat (map record_line records)) = map record_json records /\
    (forall r, In r records ->
       line_free (record_json r) /\
       JsonReader.loads_object (record_json r) = Some (record_object r) /\
       came_from (U := latin1) (D := detect_nothing) (W := table_web bilingual_site)
                 (C := no_delay) [news_en; about_en] r) /\
    (forall c : char, (128 <= c)%N -> Json.escape_char c = [c]).
Proof.
  apply (@written_records_roundtrip latin1 detect_nothing (table_web bilingual_site)
           no_delay in_order None [news_en; about_en]).
  reflexivity.
Defined.

(** On the bilingual site the run writes two lines: the report pair and the
    cat pair; the pair of fifty tokens against five is filtered out and the
    fourth Welsh article has no English counterpart. *)
Example bilingual_site_output :
  option_map JsonReader.lines
    (output_file
       (main (U := latin1) (D := detect_nothing) (W := table_web bilingual_site)
             (C := no_delay) (S := in_order) None))
  = Some [record_json (report_en, report_cy, news_en);
          record_json (the_cat_sat, y_gath_yn_eistedd, news_en)].
Proof. vm_compute. reflexivity. Qed.

(** * Further properties *)

(** ** Enumeration *)

Section EnumerationBehaviour.

Context {W : Web}.

Lemma fetch_sitemaps_concat (children : list str) (lists : list (list str)) :
  Forall2 (fun child urls => get_urls child = Ok urls) children lists ->
  forall all_page_urls,
    fetch_sitemaps children all_page_urls = Ok (all_page_urls ++ concat lists).
Proof.
  induction 1 as [|child urls children lists Hchild _ IH]; intros acc; simpl.
  - rewrite app_nil_r. reflexivity.
  - rewrite Hchild; cbn [bind]. rewrite IH, <- app_assoc. reflexivity.
Qed.

(** X1. When the root sitemap and every child it lists are fetched and
    parsed, the enumeration is the concatenation of the children's URL
    lists, in the order of the index: nothing is reordered and a URL listed
    twice is kept twice. *)
Theorem enumerate_pages_concatenates :
  forall (children : list str) (lists : list (list str)),
    get_urls root_sitemap = Ok children ->
    Forall2 (fun child urls => get_urls child = Ok urls) children lists ->
    enumerate_pages = Ok (concat lists).
Proof.
  intros children lists Hroot Hchildren.
  unfold enumerate_pages. rewrite Hroot; cbn [bind].
  rewrite (fetch_sitemaps_concat Hchildren). reflexivity.
Qed.

(** X2. The enumeration raises what the first failing sitemap raises: the
    root's exception when the root fails, otherwise that of the first child
    whose fetch or parse raises, whatever the children after it hold. *)
Theorem enumerate_pages_first_failure :
  forall e : exn,
    (get_urls root_sitemap = Raise e -> enumerate_pages = Raise e)
    /\
    (forall (before after : list str) (failing : str),
        get_urls root_sitemap = Ok (before ++ failing :: after) ->
        (forall s, In s before -> exists urls, get_urls s = Ok urls) ->
        get_urls failing = Raise e ->
        enumerate_pages = Raise e).
Proof.
  intros e. split.
  - intros Hroot. unfold enumerate_pages. rewrite Hroot. reflexivity.
  - intros before after failing Hroot Hbefore Hfail.
    unfold enumerate_pages. rewrite Hroot; cbn [bind].
    apply fetch_sitemaps_raises; assumption.
Qed.

(** ** The resolver *)

(** X3. [find_language_pair] returns a pair exactly when the page is fetched
    and parsed, it has a language link with an [href], [urljoin] of the page
    URL and the [href] returns, and the joined URL passes the truth test,
    that is, it is not empty; the pair is then the page URL with the joined
    URL.  When [urljoin] raises, on a malformed [href], the result is
    [None]. *)
Theorem find_language_pair_some_iff :
  forall url : str,
    (forall en_url welsh_url : str,
        find_language_pair url = Ok (Some (en_url, welsh_url))
        <->
        en_url = url /\ welsh_url <> [] /\
        exists (response : content) (sp : soup) (switch_link : tag) (target : str),
          session_get url = Ok response /\
          BeautifulSoup response = Ok sp /\
          find_language_link sp = Some switch_link /\
          href switch_link = Some target /\
          urljoin url target = Ok welsh_url)
    /\
    (forall (response : content) (sp : soup) (switch_link : tag) (target : str) (e : exn),
        session_get url = Ok response ->
        BeautifulSoup response = Ok sp ->
        find_language_link sp = Some switch_link ->
        href switch_link = Some target ->
        urljoin url target = Raise e ->
        find_language_pair url = Ok None).
Proof.
  intros url. unfold find_language_pair, get_language_switch_url. split.
  - intros en_url welsh_url. split.
    + destruct (session_get url) as [response|e] eqn:Hget; cbn [bind try_except];
        [|discriminate].
      destruct (BeautifulSoup response) as [sp|e] eqn:Hparse; cbn [bind try_except];
        [|discriminate].
      destruct (find_language_link sp) as [switch_link|] eqn:Hlink;
        cbn [bind try_except]; [|discriminate].
      destruct (href switch_link) as [target|] eqn:Hhref;
        cbn [bind try_except]; [|discriminate].
      destruct (urljoin url target) as [[|c joined]|e] eqn:Hjoin;
        cbn [bind try_except]; try discriminate.
      intros [= <- <-].
      split; [reflexivity|]. split; [discriminate|].
      exists response, sp, switch_link, target. repeat split; assumption.
    + intros (-> & Hne & response & sp & switch_link & target
              & Hget & Hparse & Hlink & Hhref & Hjoin).
      rewrite Hget; cbn [bind]. rewrite Hparse; cbn [bind]. rewrite Hlink, Hhref.
      rewrite Hjoin; cbn [bind try_except].
      destruct welsh_url as [|c joined]; [contradiction | reflexivity].
  - intros response sp switch_link target e Hget Hparse Hlink Hhref Hjoin.
    rewrite Hget; cbn [bind]. rewrite Hparse; cbn [bind]. rewrite Hlink, Hhref, Hjoin.
    reflexivity.
Qed.

(** X4. When the fetch or the parse of the page raises, or the page has no
    language link, or the link has no [href], [find_language_pair] returns
    [None]; it never raises. *)
Theorem find_language_pair_none :
  forall url : str,
    (forall e, session_get url = Raise e -> find_language_pair url = Ok None)
    /\
    (forall response e,
        session_get url = Ok response -> BeautifulSoup response = Raise e ->
        find_language_pair url = Ok None)
    /\
    (forall response sp,
        session_get url = Ok response -> BeautifulSoup response = Ok sp ->
        find_language_link sp = None \/
        (exists switch_link, find_language_link sp = Some switch_link /\
                             href switch_link = None) ->
        find_language_pair url = Ok None)
    /\
    (forall e, find_language_pair url <> Raise e).
Proof.
  intros url. unfold find_language_pair, get_language_switch_url.
  split; [|split; [|split]].
  - intros e Hget. rewrite Hget. reflexivity.
  - intros response e Hget Hparse. rewrite Hget; cbn [bind]. rewrite Hparse.
    reflexivity.
  - intros response sp Hget Hparse Hno. rewrite Hget; cbn [bind].
    rewrite Hparse; cbn [bind].
    destruct Hno as [-> | (switch_link & -> & ->)]; reflexivity.
  - intros e He. destruct (find_language_pair_returns url) as [found Hok].
    unfold find_language_pair, get_language_switch_url in Hok. congruence.
Qed.

End EnumerationBehaviour.

Lemma enumerate_pages_concatenates_witness :
  enumerate_pages (W := table_web site_with_repeated_page)
  = Ok (concat [[news_en; about_en]; [news_en]]).
Proof.
  apply (@enumerate_pages_concatenates (table_web site_with_repeated_page)
           [sitemap_1; sitemap_2] [[news_en; about_en]; [news_en]]).
  - reflexivity.
  - repeat constructor.
Defined.

Lemma enumerate_pages_first_failure_witness :
  enumerate_pages (W := table_web site_with_malformed_sitemap) = Raise ParseError.
Proof.
  apply (proj2 (@enumerate_pages_first_failure
                  (table_web site_with_malformed_sitemap) ParseError)
           [] [sitemap_2] sitemap_1).
  - reflexivity.
  - intros s [].
  - reflexivity.
Defined.

Lemma find_language_pair_some_iff_witness :
  find_language_pair (W := table_web bilingual_site) news_en
    = Ok (Some (news_en, news_cy)) /\
  find_language_pair (W := table_web site_with_empty_link) about_en = Ok None.
Proof.
  split.
  - apply (proj2 (proj1 (@find_language_pair_some_iff (table_web bilingual_site)
                           news_en) news_en news_cy)).
    split; [reflexivity|]. split; [intros H; vm_compute in H; discriminate|].
    exists (Page (Some news_cy) [report_en; fifty_tokens; the_cat_sat]),
           (Some news_cy, [report_en; fifty_tokens; the_cat_sat]), news_cy, news_cy.
    split; [vm_compute; reflexivity|]. split; [vm_compute; reflexivity|].
    split; [vm_compute; reflexivity|]. split; vm_compute; reflexivity.
  - apply (proj2 (@find_language_pair_some_iff (table_web site_with_empty_link)
                    about_en)
             (Page (Some (lit "http://[invalid")) [visit_london])
             (Some (lit "http://[invalid"), [visit_london])
             (lit "http://[invalid") (lit "http://[invalid") ValueError);
      vm_compute; reflexivity.
Defined.

Lemma find_language_pair_none_witness :
  find_language_pair (W := table_web monolingual_site) news_en = Ok None /\
  find_language_pair (W := table_web monolingual_site) about_en = Ok None.
Proof.
  split.
  - apply (proj1 (@find_language_pair_none (table_web monolingual_site) news_en)
             ConnectionError).
    reflexivity.
  - apply (proj1 (proj2 (proj2 (@find_language_pair_none
                                  (table_web monolingual_site) about_en)))
             (Page None [visit_london]) (None, [visit_london]));
      [reflexivity | reflexivity | left; reflexivity].
Defined.

(** An empty link resolves to the page itself: the page is paired with
    itself. *)
Example empty_link_pairs_page_with_itself :
  find_language_pair (W := table_web site_with_empty_link) news_en
  = Ok (Some (news_en, news_en)).
Proof. vm_compute. reflexivity. Qed.

(** ** The quality filter: the length rules *)

Section LadderBehaviour.

Context {U : Unicode} {D : LangDetect}.

Ltac open_ladder f en cy :=
  unfold f; cbv zeta;
  fold (token_count en); fold (token_count cy);
  rewrite truediv_positive by lia; cbn [bind];
  fold (length_ratio en cy).

Lemma length_ratio_swap (en cy : str) : length_ratio cy en = length_ratio en cy.
Proof. unfold length_ratio. rewrite Nat.min_comm, Nat.max_comm. reflexivity. Qed.

Lemma short_and_similar_swap (en cy : str) :
  short_and_similar en cy -> short_and_similar cy en.
Proof.
  unfold short_and_similar. rewrite (length_ratio_swap en cy). tauto.
Qed.

Lemma short_and_similar_has_token (en cy : str) :
  short_and_similar en cy -> 0 < Nat.max (token_count en) (token_count cy).
Proof.
  intros (_ & _ & Hratio). apply positive_ratio_has_token.
  apply Qlt_trans with (y := 0.5%Q); [reflexivity | exact Hratio].
Qed.

Lemma low_ratio_not_short (en cy : str) :
  (length_ratio en cy < 0.2)%Q -> ~ short_and_similar en cy.
Proof.
  intros Hlow (_ & _ & Hhigh).
  apply (Qlt_irrefl 0.5%Q). apply Qlt_trans with (y := length_ratio en cy);
    [exact Hhigh|]. apply Qlt_trans with (y := 0.2%Q); [exact Hlow | reflexivity].
Qed.

Lemma short_similar_decides (en cy : str) :
  short_and_similar en cy -> quality_check en cy = Ok true.
Proof.
  intros Hshort. pose proof (short_and_similar_has_token Hshort) as Hpos.
  open_ladder @quality_check en cy.
  rewrite (proj2 (short_and_similar_test en cy) Hshort). reflexivity.
Qed.

Lemma low_ratio_decides (en cy : str) :
  0 < Nat.max (token_count en) (token_count cy) ->
  (length_ratio en cy < 0.2)%Q ->
  quality_check en cy = Ok false.
Proof.
  intros Hpos Hlow. open_ladder @quality_check en cy.
  destruct ((token_count en <? 10) && (token_count cy <? 10)
            && Qlt_bool 0.5%Q (length_ratio en cy)) eqn:Short.
  { apply short_and_similar_test in Short.
    exfalso. exact (low_ratio_not_short Hlow Short). }
  rewrite (proj2 (Qlt_bool_iff _ _) Hlow). reflexivity.
Qed.

Lemma quality_check_raises_iff (en cy : str) (e : exn) :
  quality_check en cy = Raise e
  <-> e = ZeroDivisionError /\ Nat.max (token_count en) (token_count cy) = 0.
Proof.
  destruct (Nat.eq_dec (Nat.max (token_count en) (token_count cy)) 0) as [Hz | Hnz].
  - unfold quality_check. fold (token_count en). fold (token_count cy).
    rewrite Hz. cbn. split; [intros [= <-]; auto | intros [-> _]; reflexivity].
  - split; [|intros [_ H]; contradiction].
    open_ladder @quality_check en cy.
    repeat match goal with
           | |- (if ?b then _ else _) = _ -> _ => destruct b; [discriminate|]
           end.
    discriminate.
Qed.

(** X5. A pair with a token whose length ratio is below 0.2 is rejected,
    short texts included; so a pair of one text without token and one with
    tokens is rejected, in either order, and is no error. *)
Theorem low_ratio_rejected :
  (forall en cy : str,
      0 < Nat.max (token_count en) (token_count cy) ->
      (length_ratio en cy < 0.2)%Q ->
      quality_check en cy = Ok false)
  /\
  (forall blank text : str,
      split blank = [] -> split text <> [] ->
      quality_check blank text = Ok false /\ quality_check text blank = Ok false).
Proof.
  split; [exact low_ratio_decides|].
  intros blank text Hblank Htext.
  assert (Hb : token_count blank = 0) by (unfold token_count; rewrite Hblank; reflexivity).
  assert (Ht : 0 < token_count text).
  { unfold token_count. destruct (split text); [congruence | simpl; lia]. }
  assert (Hlow : (length_ratio blank text < 0.2)%Q).
  { unfold length_ratio. rewrite Hb. cbn [Nat.min]. reflexivity. }
  split.
  - apply low_ratio_decides; [lia | exact Hlow].
  - apply low_ratio_decides; [lia | rewrite length_ratio_swap; exact Hlow].
Qed.

(** X6. Where a length rule decides, or the division fails, the order of
    the two texts does not matter: for a short and similar pair, a pair of
    ratio below 0.2 and a pair without token, [quality_check] gives the same
    on the swapped pair. *)
Theorem length_rules_symmetric :
  forall en cy : str,
    short_and_similar en cy \/ (length_ratio en cy < 0.2)%Q \/
    Nat.max (token_count en) (token_count cy) = 0 ->
    quality_check cy en = quality_check en cy.
Proof.
  intros en cy [Hshort | [Hlow | Hnone]].
  - rewrite (short_similar_decides Hshort).
    apply short_similar_decides, short_and_similar_swap. exact Hshort.
  - destruct (Nat.eq_dec (Nat.max (token_count en) (token_count cy)) 0) as [Hz | Hnz].
    + rewrite (proj2 (quality_check_raises_iff en cy ZeroDivisionError) (conj eq_refl Hz)).
      apply quality_check_raises_iff. split; [reflexivity | lia].
    + rewrite (low_ratio_decides (en := en) (cy := cy)) by (lia || assumption).
      apply low_ratio_decides; [lia | rewrite length_ratio_swap; exact Hlow].
  - rewrite (proj2 (quality_check_raises_iff en cy ZeroDivisionError) (conj eq_refl Hnone)).
    apply quality_check_raises_iff. split; [reflexivity | lia].
Qed.

End LadderBehaviour.

Lemma low_ratio_rejected_witness :
  quality_check (U := latin1) (D := detect_nothing) (lit " ") the_cat_sat = Ok false /\
  quality_check (U := latin1) (D := detect_nothing) the_cat_sat (lit " ") = Ok false.
Proof.
  apply (proj2 (@low_ratio_rejected latin1 detect_nothing)).
  - reflexivity.
  - vm_compute. discriminate.
Defined.

Lemma length_rules_symmetric_witness :
  quality_check (U := latin1) (D := detect_nothing) five_tokens fifty_tokens
  = quality_check (U := latin1) (D := detect_nothing) fifty_tokens five_tokens.
Proof.
  apply (@length_rules_symmetric latin1 detect_nothing).
  right. left. vm_compute. reflexivity.
Defined.

(** ** The quality filter: detection, shared evidence and structure *)

Section AcceptanceBehaviour.

Context {U : Unicode} {D : LangDetect}.

Lemma entity_is_proper_noun (entity text : str) :
  In entity (extract_probable_entities text) ->
  exists word, probable_proper_noun word text /\ entity = lower word.
Proof.
  unfold extract_probable_entities; cbv zeta. intros Hin.
  apply (proj1 (set_of_In _ _)), in_map_iff in Hin.
  destruct Hin as (word & <- & Hword). apply filter_In in Hword.
  destruct Hword as [Hsplit Htest]. exists word. split; [|reflexivity].
  destruct word as [|c rest]; [discriminate|].
  apply andb_true_iff in Htest. destruct Htest as [Hup Hlen].
  apply Nat.ltb_lt in Hlen.
  split; [exact Hsplit|]. split; [exact Hlen|]. exists c, rest. split; [reflexivity | exact Hup].
Qed.

Lemma common_elements_shared (en cy : str) :
  (exists x,
      In x (union (intersection (extract_probable_entities en)
                                (extract_probable_entities cy))
                  (intersection (set_of (findall_plus isdecimal en))
                                (set_of (findall_plus isdecimal cy))))) ->
  share_proper_noun en cy \/ share_numeral en cy.
Proof.
  intros (x & Hx). apply union_In in Hx. destruct Hx as [Hx | Hx];
    apply intersection_In in Hx; destruct Hx as [Hen Hcy].
  - left. destruct (entity_is_proper_noun _ _ Hen) as (w1 & H1 & E1).
    destruct (entity_is_proper_noun _ _ Hcy) as (w2 & H2 & E2).
    exists w1, w2. split; [exact H1|]. split; [exact H2|].
    rewrite <- E1, <- E2. reflexivity.
  - right. exists x. split; apply (proj1 (set_of_In _ _)); assumption.
Qed.

Lemma similar_structure_test (en cy : str) :
  (Z.abs (Z.of_nat (sentence_count en) - Z.of_nat (sentence_count cy)) <=? 1)%Z
  || (paragraph_count en =? paragraph_count cy) = true
  <-> similar_structure en cy.
Proof.
  unfold similar_structure. rewrite orb_true_iff, Z.leb_le, Nat.eqb_eq. reflexivity.
Qed.

(** From the shared-evidence rule on: accepted exactly on shared evidence or
    similar structure, rejected otherwise. *)
Lemma ladder_tail (en cy : str) :
  reaches_shared_evidence en cy ->
  (share_proper_noun en cy \/ share_numeral en cy \/ similar_structure en cy ->
   quality_check en cy = Ok true)
  /\
  (~ (share_proper_noun en cy \/ share_numeral en cy \/ similar_structure en cy) ->
   quality_check en cy = Ok false).
Proof.
  intros Hreach.
  assert (Hshared : share_proper_noun en cy \/ share_numeral en cy ->
                    quality_check en cy = Ok true)
    by (apply shared_evidence_decides; exact Hreach).
  destruct Hreach as (Hpos & Hshort & Hratio & Hen & Hcy & Hdetect).
  assert (Hbody : quality_check en cy =
    if 0 <? length (union (intersection (extract_probable_entities en)
                                        (extract_probable_entities cy))
                          (intersection (set_of (findall_plus isdecimal en))
                                        (set_of (findall_plus isdecimal cy))))
    then Ok true
    else if (Z.abs (Z.of_nat (sentence_count en) - Z.of_nat (sentence_count cy)) <=? 1)%Z
         then Ok true
         else if paragraph_count en =? paragraph_count cy then Ok true else Ok false).
  { unfold quality_check; cbv zeta.
    fold (token_count en); fold (token_count cy).
    rewrite truediv_positive by lia; cbn [bind].
    fold (length_ratio en cy).
    destruct ((token_count en <? 10) && (token_count cy <? 10)
              && Qlt_bool 0.5%Q (length_ratio en cy)) eqn:Short.
    { apply short_and_similar_test in Short. contradiction. }
    rewrite (proj2 (Qlt_bool_false_iff _ _) Hratio).
    rewrite (common_count_positive Hen), (common_count_positive Hcy). cbn [orb].
    destruct (language_detection_rejects en cy) eqn:Rej.
    { apply language_detection_rejects_iff in Rej. contradiction. }
    reflexivity. }
  split.
  - intros [Hs | [Hs | Hs]]; [apply Hshared; left; exact Hs
                              | apply Hshared; right; exact Hs |].
    rewrite Hbody. apply similar_structure_test in Hs.
    destruct (0 <? length _); [reflexivity|].
    destruct (Z.abs _ <=? 1)%Z; [reflexivity|]. cbn [orb] in Hs. rewrite Hs. reflexivity.
  - intros Hnone. rewrite Hbody.
    destruct (0 <? length _) eqn:Hcommon.
    { exfalso. apply Hnone. apply Nat.ltb_lt in Hcommon.
      destruct (common_elements_shared en cy) as [Hs | Hs]; [|tauto|tauto].
      apply length_zero_no_element. apply Nat.eqb_neq. lia. }
    destruct (Z.abs _ <=? 1)%Z eqn:Hsent.
    { exfalso. apply Hnone. right. right. apply similar_structure_test.
      rewrite Hsent. reflexivity. }
    destruct (paragraph_count en =? paragraph_count cy) eqn:Hpar; [|reflexivity].
    exfalso. apply Hnone. right. right. apply similar_structure_test.
    rewrite Hpar. apply orb_true_r.
Qed.

(** A pair that is accepted without being short and similar has gone through
    rules 2 to 4. *)
Lemma accepted_long_reaches (en cy : str) :
  quality_check en cy = Ok true -> ~ short_and_similar en cy ->
  reaches_shared_evidence en cy.
Proof.
  intros Hacc Hshort.
  assert (Hpos : 0 < Nat.max (token_count en) (token_count cy)).
  { destruct (Nat.eq_dec (Nat.max (token_count en) (token_count cy)) 0) as [Hz | Hnz];
      [|lia].
    rewrite (proj2 (quality_check_raises_iff en cy ZeroDivisionError) (conj eq_refl Hz))
      in Hacc. discriminate. }
  revert Hacc. unfold quality_check; cbv zeta.
  fold (token_count en); fold (token_count cy).
  rewrite truediv_positive by lia; cbn [bind].
  fold (length_ratio en cy).
  destruct ((token_count en <? 10) && (token_count cy <? 10)
            && Qlt_bool 0.5%Q (length_ratio en cy)) eqn:Short.
  { apply short_and_similar_test in Short. contradiction. }
  destruct (Qlt_bool (length_ratio en cy) 0.2%Q) eqn:Low; [discriminate|].
  apply Qlt_bool_false_iff in Low.
  destruct (length (intersection (set_of (split (lower en))) common_en_words) =? 0)
    eqn:Cen; [discriminate|].
  destruct (length (intersection (set_of (split (lower cy))) common_cy_words) =? 0)
    eqn:Ccy; [discriminate|].
  cbn [orb].
  destruct (language_detection_rejects en cy) eqn:Rej; [discriminate|].
  intros _.
  repeat split; try assumption.
  - destruct (proj1 (length_zero_no_element _) Cen) as (w & Hw).
    apply intersection_In in Hw. destruct Hw as [Hw Hc].
    exists w. split; [apply (proj1 (set_of_In _ _)); exact Hw | exact Hc].
  - destruct (proj1 (length_zero_no_element _) Ccy) as (w & Hw).
    apply intersection_In in Hw. destruct Hw as [Hw Hc].
    exists w. split; [apply (proj1 (set_of_In _ _)); exact Hw | exact Hc].
  - intros Hcontra. apply language_detection_rejects_iff in Hcontra. congruence.
Qed.

(** X7. [quality_check] accepts a pair exactly when it is short and similar,
    or when rules 2 to 4 pass (ratio at least 0.2, a common word of its
    language in each text, no contradicting detection) and the texts share a
    probable proper noun or a numeral, or have sentence counts at most one
    apart, or have equally many paragraphs. *)
Theorem quality_check_accepts_iff :
  forall en cy : str,
    quality_check en cy = Ok true
    <->
    short_and_similar en cy \/
    (reaches_shared_evidence en cy /\
     (share_proper_noun en cy \/ share_numeral en cy \/ similar_structure en cy)).
Proof.
  intros en cy. split.
  - intros Hacc.
    assert (Hdec : short_and_similar en cy \/ ~ short_and_similar en cy).
    { destruct ((token_count en <? 10) && (token_count cy <? 10)
                && Qlt_bool 0.5%Q (length_ratio en cy)) eqn:Short.
      - left. apply short_and_similar_test. exact Short.
      - right. intros H. apply short_and_similar_test in H. congruence. }
    destruct Hdec as [Hshort | Hlong]; [left; exact Hshort | right].
    pose proof (accepted_long_reaches Hacc Hlong) as Hreach.
    split; [exact Hreach|].
    destruct (ladder_tail Hreach) as [_ Hrej].
    assert (Hev : forall P : Prop, (~ P -> quality_check en cy = Ok false) -> ~ ~ P).
    { intros P HP HnP. rewrite (HP HnP) in Hacc. discriminate. }
    pose proof (Hev _ Hrej) as Hnn.
    (* the three tests are decidable *)
    destruct (0 <? length (union (intersection (extract_probable_entities en)
                                               (extract_probable_entities cy))
                                 (intersection (set_of (findall_plus isdecimal en))
                                               (set_of (findall_plus isdecimal cy)))))
      eqn:Hcommon.
    + apply Nat.ltb_lt in Hcommon.
      destruct (common_elements_shared en cy) as [Hs | Hs]; [|tauto|tauto].
      apply length_zero_no_element. apply Nat.eqb_neq. lia.
    + destruct ((Z.abs (Z.of_nat (sentence_count en) - Z.of_nat (sentence_count cy)) <=? 1)%Z
                || (paragraph_count en =? paragraph_count cy)) eqn:Hstruct.
      * right. right. apply similar_structure_test. exact Hstruct.
      * exfalso. apply Hnn. intros [Hs | [Hs | Hs]].
        -- apply Nat.ltb_ge in Hcommon.
           assert (Hin : exists x, In x (union (intersection (extract_probable_entities en)
                                               (extract_probable_entities cy))
                                 (intersection (set_of (findall_plus isdecimal en))
                                               (set_of (findall_plus isdecimal cy))))).
           { destruct Hs as (w1 & w2 & H1 & H2 & Heq). exists (lower w1).
             apply union_In. left. apply intersection_In. split.
             - apply proper_noun_extracted; assumption.
             - rewrite Heq. apply proper_noun_extracted; assumption. }
           apply length_zero_no_element in Hin. apply Nat.eqb_neq in Hin. lia.
        -- apply Nat.ltb_ge in Hcommon.
           assert (Hin : exists x, In x (union (intersection (extract_probable_entities en)
                                               (extract_probable_entities cy))
                                 (intersection (set_of (findall_plus isdecimal en))
                                               (set_of (findall_plus isdecimal cy))))).
           { destruct Hs as (run & H1 & H2). exists run.
             apply union_In. right. apply intersection_In.
             split; apply set_of_In; assumption. }
           apply length_zero_no_element in Hin. apply Nat.eqb_neq in Hin. lia.
        -- apply similar_structure_test in Hs. congruence.
  - intros [Hshort | [Hreach Hev]].
    + apply short_similar_decides. exact Hshort.
    + apply ladder_tail; assumption.
Qed.

End AcceptanceBehaviour.

Section DetectionBehaviour.

Context {U : Unicode} {D : LangDetect}.

(** X8. Language detection has a veto and is lenient.  When both detections
    return and neither language is the expected one, a pair that is not
    short and similar is rejected, shared evidence or not.  When a detection
    raises LangDetectException, or the English text is detected as "en", or
    the Welsh text as "cy", a pair that passes rules 1 to 3 is decided by
    the evidence alone. *)
Theorem language_detection_veto :
  forall en cy : str,
    (0 < Nat.max (token_count en) (token_count cy) ->
     ~ short_and_similar en cy ->
     detection_contradicts en cy ->
     quality_check en cy = Ok false)
    /\
    (0 < Nat.max (token_count en) (token_count cy) ->
     ~ short_and_similar en cy ->
     ~ (length_ratio en cy < 0.2)%Q ->
     has_common_word en common_en_words ->
     has_common_word cy common_cy_words ->
     detect en = LangDetectException \/ detect cy = LangDetectException \/
     detect en = Detected (lit "en") \/ detect cy = Detected (lit "cy") ->
     share_proper_noun en cy \/ share_numeral en cy \/ similar_structure en cy ->
     quality_check en cy = Ok true).
Proof.
  intros en cy. split.
  - intros Hpos Hshort Hcontra.
    unfold quality_check; cbv zeta.
    fold (token_count en); fold (token_count cy).
    rewrite truediv_positive by lia; cbn [bind].
    fold (length_ratio en cy).
    destruct ((token_count en <? 10) && (token_count cy <? 10)
              && Qlt_bool 0.5%Q (length_ratio en cy)) eqn:Short.
    { apply short_and_similar_test in Short. contradiction. }
    destruct (Qlt_bool (length_ratio en cy) 0.2%Q); [reflexivity|].
    destruct (_ || _); [reflexivity|].
    rewrite (proj2 (language_detection_rejects_iff en cy) Hcontra). reflexivity.
  - intros Hpos Hshort Hratio Hen Hcy Hlenient Hev.
    apply ladder_tail; [|exact Hev].
    repeat split; try assumption.
    intros (l1 & l2 & H1 & H2 & Hne1 & Hne2).
    destruct Hlenient as [H | [H | [H | H]]]; congruence.
Qed.

End DetectionBehaviour.

Lemma language_detection_veto_witness :
  share_numeral (U := latin1) report_en report_cy /\
  quality_check (U := latin1) (D := detect_always "fr") report_en report_cy = Ok false /\
  quality_check (U := latin1) (D := detect_nothing) report_en report_cy = Ok true.
Proof.
  split; [exact report_shares_numeral|]. split.
  - apply (proj1 (@language_detection_veto latin1 (detect_always "fr") report_en report_cy)).
    + vm_compute. lia.
    + intros (H & _). vm_compute in H. lia.
    + exists (lit "fr"), (lit "fr").
      split; [reflexivity|]. split; [reflexivity|].
      split; intros H; vm_compute in H; discriminate.
  - apply (proj2 (@language_detection_veto latin1 detect_nothing report_en report_cy)).
    + vm_compute. lia.
    + intros (H & _). vm_compute in H. lia.
    + intros H. vm_compute in H. discriminate.
    + exists (lit "the"). split; apply mem_In; vm_compute; reflexivity.
    + exists (lit "mae"). split; apply mem_In; vm_compute; reflexivity.
    + left. reflexivity.
    + right. left. exact report_shares_numeral.
Defined.

Lemma quality_check_accepts_iff_witness :
  quality_check (U := latin1) (D := detect_nothing) the_cat_sat y_gath_yn_eistedd = Ok true.
Proof.
  apply (proj2 (@quality_check_accepts_iff latin1 detect_nothing
                  the_cat_sat y_gath_yn_eistedd)).
  left. unfold short_and_similar.
  split; [vm_compute; lia|]. split; [vm_compute; lia|]. vm_compute. reflexivity.
Defined.

(** ** One unit *)

Section UnitBehaviour.

Context {U : Unicode} {D : LangDetect} {W : Web} {C : Config}.

Lemma quality_check_returns (en cy : str) :
  split en <> [] \/ split cy <> [] -> exists b, quality_check en cy = Ok b.
Proof.
  intros Htoken.
  destruct (quality_check en cy) as [b|e] eqn:Hq; [eauto|].
  apply quality_check_raises_iff in Hq. destruct Hq as [_ Hz].
  unfold token_count in Hz.
  destruct Htoken as [H | H]; [destruct (split en) | destruct (split cy)];
    try congruence; cbn [length] in Hz; lia.
Qed.

Lemma check_pairs_filter (en_url : str) (zipped : list (str * str)) :
  (forall texts, In texts zipped -> split (fst texts) <> [] \/ split (snd texts) <> []) ->
  forall valid_pairs,
    check_pairs en_url zipped valid_pairs
    = Ok (valid_pairs
            ++ map (fun texts => (fst texts, snd texts, en_url)) (filter accepted zipped)).
Proof.
  induction zipped as [|[en cy] zipped IH]; intros Htoken acc.
  - cbn. rewrite app_nil_r. reflexivity.
  - destruct (@quality_check_returns en cy (Htoken (en, cy) (or_introl eq_refl)))
      as [b Hb].
    assert (Hacc : accepted (en, cy) = b).
    { unfold accepted; cbn [fst snd]. rewrite Hb. destruct b; reflexivity. }
    cbn [check_pairs filter]. rewrite Hacc, Hb; cbn [bind].
    destruct b.
    + rewrite IH by (intros texts Hin; apply Htoken; right; exact Hin).
      cbn [map fst snd]. rewrite <- app_assoc. reflexivity.
    + apply IH. intros texts Hin. apply Htoken. right. exact Hin.
Qed.

Lemma check_pairs_raises (en_url : str) (zipped : list (str * str)) :
  forall valid_pairs e,
    check_pairs en_url zipped valid_pairs = Raise e -> e = ZeroDivisionError.
Proof.
  induction zipped as [|[en cy] zipped IH]; intros acc e; cbn [check_pairs];
    [discriminate|].
  destruct (quality_check en cy) as [[|]|e'] eqn:Hq; cbn [bind].
  - apply IH.
  - apply IH.
  - intros [= <-]. apply quality_check_raises_iff in Hq. tauto.
Qed.

Lemma check_pairs_blank (en_url : str) (zipped : list (str * str)) (en cy : str) :
  In (en, cy) zipped -> split en = [] -> split cy = [] ->
  forall valid_pairs, check_pairs en_url zipped valid_pairs = Raise ZeroDivisionError.
Proof.
  intros Hin Hen Hcy.
  induction zipped as [|[en' cy'] zipped IH]; intros acc; [contradiction|].
  cbn [check_pairs].
  destruct (quality_check en' cy') as [[|]|e'] eqn:Hq; cbn [bind].
  - destruct Hin as [[= -> ->] | Hin]; [|apply IH; exact Hin].
    exfalso. unfold quality_check in Hq. rewrite Hen, Hcy in Hq. discriminate.
  - destruct Hin as [[= -> ->] | Hin]; [|apply IH; exact Hin].
    exfalso. unfold quality_check in Hq. rewrite Hen, Hcy in Hq. discriminate.
  - f_equal. apply quality_check_raises_iff in Hq. tauto.
Qed.

Lemma nth_error_combine_In (A B : Type) (l1 : list A) (l2 : list B) (i : nat) (a : A) (b : B) :
  nth_error l1 i = Some a -> nth_error l2 i = Some b -> In (a, b) (combine l1 l2).
Proof.
  revert l2 i; induction l1 as [|x l1 IH]; intros [|y l2] [|i]; cbn; try discriminate.
  - intros [= ->] [= ->]. left; reflexivity.
  - intros H1 H2. right. exact (IH _ _ H1 H2).
Qed.

(** X9. When every index-aligned pair of blocks has a token on one side,
    the unit returns the aligned pairs the filter accepts, in page order and
    tagged with the English URL; there are at most as many as the shorter
    page has blocks, and blocks beyond the shorter page are ignored. *)
Theorem process_url_pair_filters :
  forall (en_url cy_url : str) (en_articles cy_articles : list str),
    scrape_page en_url = Ok en_articles ->
    scrape_page cy_url = Ok cy_articles ->
    (forall texts, In texts (combine en_articles cy_articles) ->
                   split (fst texts) <> [] \/ split (snd texts) <> []) ->
    exists results,
      process_url_pair en_url cy_url = Ok results /\
      results = map (fun texts => (fst texts, snd texts, en_url))
                    (filter accepted (combine en_articles cy_articles)) /\
      length results <= Nat.min (length en_articles) (length cy_articles).
Proof.
  intros en_url cy_url ens cys Hen Hcy Htoken.
  eexists. split; [|split; [reflexivity|]].
  - unfold process_url_pair. rewrite Hen, Hcy; cbn [bind].
    rewrite (check_pairs_filter en_url _ Htoken). reflexivity.
  - rewrite length_map.
    etransitivity; [apply filter_length_le|]. rewrite length_combine. reflexivity.
Qed.

(** X10. A unit of which one page cannot be fetched or parsed, or has no
    article, returns no record and does not raise. *)
Theorem process_url_pair_missing_page :
  forall en_url cy_url : str,
    scrape_page en_url = Ok [] \/ scrape_page cy_url = Ok [] ->
    process_url_pair en_url cy_url = Ok [].
Proof.
  intros en_url cy_url Hmissing. unfold process_url_pair.
  destruct (scrape_page_returns en_url) as [ens Hen].
  destruct (scrape_page_returns cy_url) as [cys Hcy].
  rewrite Hen, Hcy; cbn [bind].
  destruct Hmissing as [H | H]; rewrite H in *.
  - injection Hen as <-. reflexivity.
  - injection Hcy as <-. destruct ens; reflexivity.
Qed.

Lemma process_url_pair_raises (en_url cy_url : str) (e : exn) :
  process_url_pair en_url cy_url = Raise e -> e = ZeroDivisionError.
Proof.
  unfold process_url_pair.
  destruct (scrape_page_returns en_url) as [ens ->].
  destruct (scrape_page_returns cy_url) as [cys ->]. cbn [bind].
  apply check_pairs_raises.
Qed.

(** X11. A unit raises only ZeroDivisionError, and it does raise it when
    the two pages have blocks without token at the same index, whatever the
    other blocks are: the pairs accepted before are lost with it. *)
Theorem process_url_pair_blank_blocks :
  forall en_url cy_url : str,
    (forall e, process_url_pair en_url cy_url = Raise e -> e = ZeroDivisionError)
    /\
    (forall (en_articles cy_articles : list str) (i : nat) (en cy : str),
        scrape_page en_url = Ok en_articles ->
        scrape_page cy_url = Ok cy_articles ->
        nth_error en_articles i = Some en -> nth_error cy_articles i = Some cy ->
        split en = [] -> split cy = [] ->
        process_url_pair en_url cy_url = Raise ZeroDivisionError).
Proof.
  intros en_url cy_url. split.
  - intros e. apply process_url_pair_raises.
  - intros ens cys i en cy Hen Hcy H1 H2 Hben Hbcy.
    unfold process_url_pair. rewrite Hen, Hcy; cbn [bind].
    apply check_pairs_blank with (en := en) (cy := cy); try assumption.
    exact (nth_error_combine_In _ _ _ H1 H2).
Qed.

End UnitBehaviour.

Lemma process_url_pair_filters_witness :
  exists results,
    process_url_pair (U := latin1) (D := detect_nothing) (W := table_web bilingual_site)
                     (C := no_delay) news_en news_cy = Ok results /\
    results = map (fun texts => (fst texts, snd texts, news_en))
                  (filter (accepted (U := latin1) (D := detect_nothing))
                          (combine [report_en; fifty_tokens; the_cat_sat]
                                   [report_cy; five_tokens; y_gath_yn_eistedd;
                                    ymweld_a_london])) /\
    length results <= Nat.min 3 4.
Proof.
  apply (@process_url_pair_filters latin1 detect_nothing (table_web bilingual_site)
           no_delay news_en news_cy
           [report_en; fifty_tokens; the_cat_sat]
           [report_cy; five_tokens; y_gath_yn_eistedd; ymweld_a_london]).
  - vm_compute. reflexivity.
  - vm_compute. reflexivity.
  - intros texts [<- | [<- | [<- | []]]]; left; vm_compute; discriminate.
Defined.

Lemma process_url_pair_missing_page_witness :
  process_url_pair (U := latin1) (D := detect_nothing) (W := table_web monolingual_site)
                   (C := no_delay) about_en news_cy = Ok [].
Proof.
  apply (@process_url_pair_missing_page latin1 detect_nothing
           (table_web monolingual_site) no_delay about_en news_cy).
  right. vm_compute. reflexivity.
Defined.

Lemma process_url_pair_blank_blocks_witness :
  process_url_pair (U := latin1) (D := detect_nothing)
                   (W := table_web site_with_blank_articles) (C := no_delay)
                   news_en news_cy = Raise ZeroDivisionError.
Proof.
  apply (proj2 (@process_url_pair_blank_blocks latin1 detect_nothing
                  (table_web site_with_blank_articles) no_delay news_en news_cy)
           [the_cat_sat; lit "  "; report_en] [y_gath_yn_eistedd; []; report_cy]
           1 (lit "  ") []);
    vm_compute; reflexivity.
Defined.

(** ** The run *)

Lemma flat_map_of_map (A B X : Type) (f : B -> list X) (g : A -> B) (l : list A) :
  flat_map f (map g l) = flat_map (fun a => f (g a)) l.
Proof. induction l as [|a l IH]; cbn; [reflexivity | rewrite IH; reflexivity]. Qed.

Section RunBehaviour.

Context {U : Unicode} {D : LangDetect} {W : Web} {C : Config} {S : Scheduler}.

Lemma collect_pairs_all (completed : list (result (option (str * str)))) :
  Forall (fun future => exists found, future = Ok found) completed ->
  forall url_pairs,
    collect_pairs completed url_pairs = Ok (url_pairs ++ flat_map pair_of completed).
Proof.
  induction 1 as [|future rest [found ->] _ IH]; intros acc; cbn [collect_pairs flat_map].
  - rewrite app_nil_r. reflexivity.
  - cbn [bind pair_of]. destruct found as [p|]; rewrite IH.
    + rewrite <- app_assoc. reflexivity.
    + reflexivity.
Qed.

Lemma phase_1_pairs (all_page_urls : list str) :
  exists url_pairs,
    collect_pairs (as_completed 1 (map find_language_pair all_page_urls)) [] = Ok url_pairs /\
    Permutation url_pairs (found_pairs all_page_urls).
Proof.
  eexists. split.
  - apply collect_pairs_all. apply Forall_forall. intros future Hin.
    apply as_completed_In, in_map_iff in Hin. destruct Hin as (url & <- & _).
    apply find_language_pair_returns.
  - cbn [app]. unfold found_pairs.
    transitivity (flat_map pair_of (map find_language_pair all_page_urls)).
    + apply Permutation_flat_map, as_completed_perm.
    + rewrite flat_map_of_map. reflexivity.
Qed.

Lemma write_completed_all (completed : list (result (list (str * str * str)))) :
  Forall (fun future => exists results, future = Ok results) completed ->
  forall f,
    write_completed completed f
    = (f ++ concat (map record_line (flat_map records_of completed)), None).
Proof.
  induction 1 as [|future rest [results ->] _ IH]; intros f;
    cbn [write_completed flat_map records_of].
  - rewrite app_nil_r. reflexivity.
  - rewrite IH, write_results_appends, map_app, concat_app, <- app_assoc. reflexivity.
Qed.

Lemma write_completed_stops (before : list (list (str * str * str)))
    (e : exn) (after : list (result (list (str * str * str)))) (f : str) :
  write_completed (map Ok before ++ Raise e :: after) f
  = (f ++ concat (map record_line (concat before)), Some e).
Proof.
  revert f; induction before as [|results before IH]; intros f; cbn.
  - rewrite app_nil_r. reflexivity.
  - rewrite IH, write_results_appends, map_app, concat_app, <- app_assoc. reflexivity.
Qed.

(** X12. The pairs handed to Phase 2 are a permutation of the pairs the
    resolver finds for the enumerated pages: every page with a Welsh
    counterpart gives one unit per occurrence in the enumeration, in an
    order that depends on the scheduling only; every enumerated page is
    resolved. *)
Theorem phase_1_finds_every_pair :
  forall (prior : option str) (all_page_urls : list str),
    enumerate_pages = Ok all_page_urls ->
    resolver_units (main prior) = all_page_urls /\
    Permutation (scrape_units (main prior)) (found_pairs all_page_urls).
Proof.
  intros prior all_page_urls Hpages. unfold main. rewrite Hpages.
  destruct (phase_1_pairs all_page_urls) as (url_pairs & -> & Hperm).
  destruct (write_completed _ _) as [f error]. cbn. split; [reflexivity | exact Hperm].
Qed.

(** X13. When no unit raises, the run ends without error and the lines of
    the output file are a permutation of the JSON texts of the records of
    all units: what is written does not depend on the scheduling, only its
    order does; a page enumerated twice is written twice. *)
Theorem output_is_scheduling_independent :
  forall (prior : option str) (all_page_urls : list str),
    enumerate_pages = Ok all_page_urls ->
    (forall urls, In urls (found_pairs all_page_urls) ->
                  exists results, process_url_pair (fst urls) (snd urls) = Ok results) ->
    exists f : str,
      output_file (main prior) = Some f /\
      unexpected_error (main prior) = None /\
      Permutation (JsonReader.lines f)
                  (map record_json (flat_map unit_records (found_pairs all_page_urls))).
Proof.
  intros prior all_page_urls Hpages Hreturn. unfold main. rewrite Hpages.
  destruct (phase_1_pairs all_page_urls) as (url_pairs & -> & Hperm).
  set (futures := map (fun p => process_url_pair (fst p) (snd p)) url_pairs).
  assert (Hall : Forall (fun future => exists results, future = Ok results)
                        (as_completed 2 futures)).
  { apply Forall_forall. intros future Hin.
    apply as_completed_In, in_map_iff in Hin. destruct Hin as (urls & <- & Hin).
    apply Hreturn. apply Permutation_in with (l := url_pairs); assumption. }
  rewrite (write_completed_all Hall). cbn [app output_file unexpected_error].
  eexists. split; [reflexivity|]. split; [reflexivity|].
  rewrite lines_of_records. apply Permutation_map.
  transitivity (flat_map records_of futures).
  - apply Permutation_flat_map, as_completed_perm.
  - unfold futures. rewrite flat_map_of_map.
    apply Permutation_flat_map. exact Hperm.
Qed.

(** X14. When a unit raises, the run stops writing: the file holds the
    lines of the units that completed before it and nothing of those that
    complete after it, and the exception, always ZeroDivisionError, is the
    one the handler of [main] catches. *)
Theorem raising_unit_stops_the_writing :
  forall (prior : option str) (all_page_urls : list str)
         (before : list (list (str * str * str))) (e : exn)
         (after : list (result (list (str * str * str)))),
    enumerate_pages = Ok all_page_urls ->
    as_completed 2 (map (fun p => process_url_pair (fst p) (snd p))
                        (scrape_units (main prior)))
      = map Ok before ++ Raise e :: after ->
    output_file (main prior) = Some (concat (map record_line (concat before))) /\
    unexpected_error (main prior) = Some e /\
    e = ZeroDivisionError.
Proof.
  intros prior all_page_urls before e after Hpages.
  unfold main. rewrite Hpages.
  destruct (phase_1_pairs all_page_urls) as (url_pairs & -> & _).
  destruct (write_completed _ _) as [f error] eqn:Hwrite.
  cbn [scrape_units output_file unexpected_error]. intros Horder.
  rewrite Horder, write_completed_stops in Hwrite. injection Hwrite as <- <-.
  cbn [app]. split; [reflexivity|]. split; [reflexivity|].
  assert (Hin : In (Raise e) (map (fun p => process_url_pair (fst p) (snd p)) url_pairs)).
  { apply (as_completed_In 2). rewrite Horder. apply in_elt. }
  apply in_map_iff in Hin. destruct Hin as (urls & Hraise & _).
  exact (process_url_pair_raises _ _ Hraise).
Qed.

End RunBehaviour.

Section OutputInvariant.

Context {U : Unicode} {D : LangDetect} {W : Web} {C : Config} {S : Scheduler}.

(** The file of a run that reached Phase 2 is made of the lines of records
    the filter accepted. *)
Lemma run_writes_accepted (prior : option str) (all_page_urls : list str) :
  enumerate_pages = Ok all_page_urls ->
  exists records : list (str * str * str),
    output_file (main prior) = Some (concat (map record_line records)) /\
    forall en cy url, In (en, cy, url) records -> quality_check en cy = Ok true.
Proof.
  intros Hpages. unfold main. rewrite Hpages.
  destruct (phase_1_pairs all_page_urls) as (url_pairs & -> & _).
  set (completed := as_completed 2
         (map (fun p => process_url_pair (fst p) (snd p)) url_pairs)).
  destruct (write_completed_written completed []) as (written & Hf & Hfrom).
  destruct (write_completed completed []) as [f error]. cbn [fst app] in Hf. subst f.
  exists written. cbn [output_file]. split; [reflexivity|].
  intros en cy url Hr.
  destruct (Hfrom _ Hr) as (results & Hin & Hres).
  apply as_completed_In, in_map_iff in Hin. destruct Hin as (urls & Hproc & _).
  destruct (process_url_pair_accepted _ _ Hproc _ Hres)
    as (en' & cy' & _ & _ & _ & [= -> -> _] & _ & _ & _ & _ & Hq).
  exact Hq.
Qed.

(** X15. No line of the output file holds a pair of ratio below 0.2 or a
    pair without token; and a written pair that is not short and similar has
    a common English word in its English text and a common Welsh word in its
    Welsh text. *)
Theorem written_pairs_pass_the_rules :
  forall (prior : option str) (all_page_urls : list str),
    enumerate_pages = Ok all_page_urls ->
    exists records : list (str * str * str),
      output_file (main prior) = Some (concat (map record_line records)) /\
      forall en cy url, In (en, cy, url) records ->
        0 < Nat.max (token_count en) (token_count cy) /\
        ~ (length_ratio en cy < 0.2)%Q /\
        (short_and_similar en cy \/
         (has_common_word en common_en_words /\ has_common_word cy common_cy_words)).
Proof.
  intros prior all_page_urls Hpages.
  destruct (run_writes_accepted prior Hpages) as (records & Hfile & Hacc).
  exists records. split; [exact Hfile|].
  intros en cy url Hin. specialize (Hacc _ _ _ Hin).
  assert (Hdec : short_and_similar en cy \/ ~ short_and_similar en cy).
  { destruct ((token_count en <? 10) && (token_count cy <? 10)
              && Qlt_bool 0.5%Q (length_ratio en cy)) eqn:Short.
    - left. apply short_and_similar_test. exact Short.
    - right. intros H. apply short_and_similar_test in H. congruence. }
  destruct Hdec as [Hshort | Hlong].
  - split; [apply short_and_similar_has_token; exact Hshort|].
    split; [|left; exact Hshort].
    intros Hlow. exact (low_ratio_not_short Hlow Hshort).
  - destruct (accepted_long_reaches Hacc Hlong) as (Hpos & _ & Hratio & Hen & Hcy & _).
    split; [exact Hpos|]. split; [exact Hratio|]. right. split; assumption.
Qed.

End OutputInvariant.

Lemma phase_1_finds_every_pair_witness :
  resolver_units
    (main (U := latin1) (D := detect_nothing) (W := table_web site_with_repeated_page)
          (C := no_delay) (S := reversed) None)
  = [news_en; about_en; news_en] /\
  Permutation
    (scrape_units
       (main (U := latin1) (D := detect_nothing) (W := table_web site_with_repeated_page)
             (C := no_delay) (S := reversed) None))
    (found_pairs (W := table_web site_with_repeated_page) [news_en; about_en; news_en]).
Proof.
  apply (@phase_1_finds_every_pair latin1 detect_nothing
           (table_web site_with_repeated_page) no_delay reversed None
           [news_en; about_en; news_en]).
  vm_compute. reflexivity.
Defined.

(** The page listed by both sitemaps gives two units. *)
Example repeated_page_found_twice :
  found_pairs (W := table_web site_with_repeated_page) [news_en; about_en; news_en]
  = [(news_en, news_cy); (news_en, news_cy)].
Proof. vm_compute. reflexivity. Qed.

Lemma output_is_scheduling_independent_witness :
  exists f : str,
    output_file
      (main (U := latin1) (D := detect_nothing) (W := table_web site_with_repeated_page)
            (C := no_delay) (S := reversed) None) = Some f /\
    unexpected_error
      (main (U := latin1) (D := detect_nothing) (W := table_web site_with_repeated_page)
            (C := no_delay) (S := reversed) None) = None /\
    Permutation (JsonReader.lines f)
      (map record_json
         (flat_map (unit_records (U := latin1) (D := detect_nothing)
                                 (W := table_web site_with_repeated_page) (C := no_delay))
                   (found_pairs (W := table_web site_with_repeated_page)
                                [news_en; about_en; news_en]))).
Proof.
  apply (@output_is_scheduling_independent latin1 detect_nothing
           (table_web site_with_repeated_page) no_delay reversed None
           [news_en; about_en; news_en]).
  - vm_compute. reflexivity.
  - intros urls Hin.
    vm_compute in Hin.
    destruct Hin as [<- | [<- | []]]; eexists; vm_compute; reflexivity.
Defined.

Lemma raising_unit_stops_the_writing_witness :
  output_file
    (main (U := latin1) (D := detect_nothing) (W := table_web site_with_blank_articles)
          (C := no_delay) (S := in_order) None)
  = Some (concat (map record_line (concat [[(report_en, report_cy, events_en)]]))) /\
  unexpected_error
    (main (U := latin1) (D := detect_nothing) (W := table_web site_with_blank_articles)
          (C := no_delay) (S := in_order) None)
  = Some ZeroDivisionError /\
  ZeroDivisionError = ZeroDivisionError.
Proof.
  apply (@raising_unit_stops_the_writing latin1 detect_nothing
           (table_web site_with_blank_articles) no_delay in_order None
           [events_en; news_en] [[(report_en, report_cy, events_en)]]
           ZeroDivisionError []).
  - vm_compute. reflexivity.
  - vm_compute. reflexivity.
Defined.

(** Completed in the other order, the same units leave an empty file: the
    raising unit comes first. *)
Example raising_unit_first_leaves_nothing :
  output_file
    (main (U := latin1) (D := detect_nothing) (W := table_web site_with_blank_articles)
          (C := no_delay) (S := scraping_reversed) None) = Some []
  /\
  scrape_units
    (main (U := latin1) (D := detect_nothing) (W := table_web site_with_blank_articles)
          (C := no_delay) (S := scraping_reversed) None)
  = [(events_en, events_cy); (news_en, news_cy)].
Proof. split; vm_compute; reflexivity. Qed.

Lemma written_pairs_pass_the_rules_witness :
  exists records : list (str * str * str),
    output_file
      (main (U := latin1) (D := detect_nothing) (W := table_web bilingual_site)
            (C := no_delay) (S := in_order) None)
    = Some (concat (map record_line records)) /\
    forall en cy url, In (en, cy, url) records ->
      0 < Nat.max (token_count en) (token_count cy) /\
      ~ (length_ratio en cy < 0.2)%Q /\
      (short_and_similar en cy \/
       (has_common_word (U := latin1) en common_en_words /\
        has_common_word (U := latin1) cy common_cy_words)).
Proof.
  apply (@written_pairs_pass_the_rules latin1 detect_nothing (table_web bilingual_site)
           no_delay in_order None [news_en; about_en]).
  vm_compute. reflexivity.
Defined.

(** As shipped, with [REQUEST_DELAY] unbound, every unit scrapes two empty
    lists: the run of the bilingual site finds its pair and writes nothing. *)
Example as_shipped_run_writes_nothing :
  main (U := latin1) (D := detect_nothing) (W := table_web bilingual_site)
       (C := as_shipped) (S := in_order) None
  = {| output_file := Some [];
       resolver_units := [news_en; about_en];
       scrape_units := [(news_en, news_cy)];
       unexpected_error := None |}.
Proof. vm_compute. reflexivity. Qed.
